(** * Al_Hadi: the EEZ boundary-relation logic of the vessel tracker

    A shallow embedding of [src/lib/geoutils.js] and of the three functions of
    the [App] component that decide the safety state, the distance to the EEZ
    boundary and the demo location ([updateSafety], [updateDistanceToEEZ],
    [getRandomDemoLocation]).

    Conventions.
    - A JavaScript number is a [number]: [NaN], the two infinities, or a
      finite value carried as an exact rational.  Arithmetic on finite values
      is exact: binary64 rounding is not modelled.
    - A call that may throw returns a [result].
    - The component's React state, the map handle and the count of
      [Math.random()] draws are one record, [App]; a function of the
      component is a state transformer [M].  Every setter also records the
      call it stands for, in program order, in [calls].  A function reads
      the state as it is when it is called: the render a handler was created
      in is not modelled.
    - The geometry library (turf) is not part of the repository: it is an
      interface, [Turf], and what is proved of the component's own logic
      holds for every implementation of it.  [PlanarTurf] is one
      implementation, on which the functions can be run; what depends on the
      library's geometry (which rings a distance ranges over, which rings
      the containment test accepts) is stated on it. *)

From Stdlib Require Import QArith Qround Qabs ZArith List String Ascii Bool Lia Lqa.
From Stdlib Require Import DecimalString.
Import ListNotations.

Local Open Scope string_scope.
Local Open Scope list_scope.

(** ** JavaScript values *)

Module Js.

(** A JavaScript number. *)
Inductive number : Type :=
| NaN
| NegInfinity
| Num (q : Q)
| Infinity.

(** [Qltb x y]: the rational [x] is below [y]. *)
Definition Qltb (x y : Q) : bool := negb (Qle_bool y x).

(** [a < b] on numbers: false as soon as one side is [NaN]. *)
Definition lt (a b : number) : bool :=
  match a, b with
  | NaN, _ | _, NaN => false
  | _, NegInfinity => false
  | NegInfinity, _ => true
  | Infinity, _ => false
  | Num _, Infinity => true
  | Num x, Num y => Qltb x y
  end.

(** [0 <= a], as a proposition: what a distance is. *)
Definition nonneg (a : number) : Prop :=
  match a with
  | Num q => (0 <= q)%Q
  | Infinity => True
  | NaN | NegInfinity => False
  end.

(** [a <= b] as the order of the extended rationals; [NaN] is below and
    above nothing. *)
Definition le (a b : number) : Prop :=
  match a, b with
  | NaN, _ | _, NaN => False
  | NegInfinity, _ => True
  | _, Infinity => True
  | Num x, Num y => (x <= y)%Q
  | _, _ => False
  end.

Definition isNaN (a : number) : bool :=
  match a with NaN => true | _ => false end.

(** The outcome of evaluating an expression: a value, or a thrown error
    (carried as its message). *)
Inductive result (A : Type) : Type :=
| Normal (a : A)
| Throw (message : string).
Arguments Normal {A} a.
Arguments Throw {A} message.

Definition throws {A} (r : result A) : bool :=
  match r with Throw _ => true | Normal _ => false end.

(** Decimal digits of a natural number. *)
Definition digits (n : Z) : string :=
  NilEmpty.string_of_uint (N.to_uint (Z.to_N n)).

(** The two digits of [n mod 100]. *)
Definition two_digits (n : Z) : string :=
  let r := (n mod 100)%Z in
  if (r <? 10)%Z then ("0" ++ digits r)%string else digits r.

(** [hundredths q], for [0 <= q]: the integer [n] with [n / 100] nearest
    to [q], the larger one when two are as near. *)
Definition hundredths (q : Q) : Z := Qfloor (q * 100 + (1 # 2)).

(** [x.toFixed(2)].  A negative value prints its sign and the digits of its
    absolute value.  (From 10^21 on JavaScript switches to exponent
    notation; distances never get there and the switch is not modelled.) *)
Definition toFixed2 (x : number) : string :=
  match x with
  | NaN => "NaN"
  | Infinity => "Infinity"
  | NegInfinity => "-Infinity"
  | Num q =>
      let sign := if Qltb q 0 then "-" else "" in
      let n := hundredths (Qabs q) in
      (sign ++ digits (n / 100) ++ "." ++ two_digits n)%string
  end.

End Js.

Import Js.

(** ** GeoJSON *)

(** A position, [[lon, lat]]. *)
Definition Position : Type := (Q * Q)%type.

(** A linear ring, or the positions of a line. *)
Definition Ring : Type := list Position.

Inductive Geometry : Type :=
| Polygon (coordinates : list Ring)
| MultiPolygon (coordinates : list (list Ring))
| LineString (coordinates : list Position)
| MultiLineString (coordinates : list (list Position)).

Record Feature : Type := mkFeature {
  bbox : option (Q * Q * Q * Q);
  geometry : Geometry
}.

(** The parsed [eez_india.geojson]; [features] is [None] when the object has
    no such member. *)
Record FeatureCollection : Type := mkFeatureCollection {
  features : option (list Feature)
}.

(** What [turf.nearestPointOnLine] answers: the point starts at
    [[Infinity, Infinity]] and stays there when the lines have no segment. *)
Definition NearestPoint : Type := (number * number)%type.

(** What [turf.polygonToLine] answers: one line feature for a polygon, a
    collection of them for a multi-polygon. *)
Inductive Lines : Type :=
| LineFeature (line : Feature)
| LineCollection (lines : list Feature).

(** ** The geometry library *)

(** The five functions of turf that the repository calls, each with the
    arguments it is called with.  [units] is always kilometers. *)
Class Turf : Type := {
  booleanPointInPolygon : Position -> Feature -> result bool;
  polygonToLine : Feature -> result Lines;
  nearestPointOnLine : Lines -> Position -> result NearestPoint;
  distance : Position -> NearestPoint -> result number;
  pointToLineDistance : Position -> Feature -> result number
}.

(** [turf.point([lon, lat])]: a point feature; it throws only when a
    coordinate is not a number, which a [Q] always is. *)
Definition point (lon lat : Q) : Position := (lon, lat).

(** ** The component's state *)

(** The [safety] state: a label and a style class ([safe], [danger], [warn]). *)
Record Safety : Type := mkSafety {
  label : string;
  cls : string
}.

(** The map behind [map.current], as far as the component reads and writes
    it: its layers by id, each with its [circle-color] (the one paint
    property the component sets). *)
Record MapBox : Type := mkMapBox {
  layers : list (string * string)
}.

(** A call the component makes on a React setter or on the map. *)
Inductive Call : Type :=
| SetSafety (s : Safety)
| SetAlertMsg (msg : option string)
| SetDistToCoast (d : option string)
| SetPaintProperty (layer property value : string).

Record App : Type := mkApp {
  map_current : option MapBox;
  eezData : option FeatureCollection;
  safety : Safety;
  alertMsg : option string;
  distToCoast : option string;
  calls : list Call;
  draws : nat
}.

(** The state of the first render: [useState]'s initial values, no map yet. *)
Definition initialApp : App :=
  {| map_current := None;
     eezData := None;
     safety := {| label := "Loading location..."; cls := "warn" |};
     alertMsg := None;
     distToCoast := None;
     calls := [];
     draws := 0 |}.

(** ** Stateful computations that may throw *)

Definition M (A : Type) : Type := App -> result A * App.

Definition ret {A} (a : A) : M A := fun st => (Normal a, st).

Definition bind {A B} (c : M A) (k : A -> M B) : M B :=
  fun st =>
    match c st with
    | (Normal a, st') => k a st'
    | (Throw e, st') => (Throw e, st')
    end.

(** A library call inside the component: its throw is the component's. *)
Definition lift {A} (r : result A) : M A := fun st => (r, st).

Declare Scope app_scope.
Delimit Scope app_scope with app.
Notation "x <- c ;; k" := (bind c (fun x => k))
  (at level 61, c at next level, right associativity) : app_scope.
Notation "c ;; k" := (bind c (fun _ => k))
  (at level 61, right associativity) : app_scope.
Local Open Scope app_scope.

(** The calls so far, and [c] after them. *)
Definition record (c : Call) (st : App) : list Call := calls st ++ [c].

Definition setSafety (s : Safety) : M unit := fun st =>
  (Normal tt,
   {| map_current := map_current st; eezData := eezData st; safety := s;
      alertMsg := alertMsg st; distToCoast := distToCoast st;
      calls := record (SetSafety s) st; draws := draws st |}).

Definition setAlertMsg (msg : option string) : M unit := fun st =>
  (Normal tt,
   {| map_current := map_current st; eezData := eezData st; safety := safety st;
      alertMsg := msg; distToCoast := distToCoast st;
      calls := record (SetAlertMsg msg) st; draws := draws st |}).

Definition setDistToCoast (d : option string) : M unit := fun st =>
  (Normal tt,
   {| map_current := map_current st; eezData := eezData st; safety := safety st;
      alertMsg := alertMsg st; distToCoast := d;
      calls := record (SetDistToCoast d) st; draws := draws st |}).

(** [map.getLayer(id)]: the layer, or nothing. *)
Fixpoint getLayer (id : string) (ls : list (string * string)) : option string :=
  match ls with
  | [] => None
  | (i, color) :: rest => if String.eqb i id then Some color else getLayer id rest
  end.

Fixpoint paint (id value : string) (ls : list (string * string)) : list (string * string) :=
  match ls with
  | [] => []
  | (i, color) :: rest =>
      if String.eqb i id then (i, value) :: rest else (i, color) :: paint id value rest
  end.

(** [map.current.setPaintProperty(layer, 'circle-color', value)]. *)
Definition setPaintProperty (layer property value : string) : M unit := fun st =>
  (Normal tt,
   {| map_current :=
        option_map (fun m => {| layers := paint layer value (layers m) |}) (map_current st);
      eezData := eezData st; safety := safety st;
      alertMsg := alertMsg st; distToCoast := distToCoast st;
      calls := record (SetPaintProperty layer property value) st; draws := draws st |}).

(** [if (map.current.getLayer(id)) body]. *)
Definition ifLayer (id : string) (body : M unit) : M unit := fun st =>
  match map_current st with
  | Some m => match getLayer id (layers m) with
              | Some _ => body st
              | None => (Normal tt, st)
              end
  | None => (Throw "TypeError: map.current is null", st)
  end.

(** The guard [!featureCollection || !featureCollection.features?.length]
    and, once it is passed, [featureCollection.features[0]]: the first feature
    of a collection that has one, nothing when the collection is absent, has
    no [features] member or has an empty one. *)
Definition primaryFeature (featureCollection : option FeatureCollection) : option Feature :=
  match featureCollection with
  | Some fc =>
      match features fc with
      | Some (eezFeature :: _) => Some eezFeature
      | Some [] | None => None
      end
  | None => None
  end.

(** ** [src/lib/geoutils.js] *)

Section Geoutils.

Context {turf : Turf}.

(** The loop of [nearestDistanceToLines], [min] being the minimum so far. *)
Fixpoint nearestDistanceToLines_from (min : number) (point : Position)
    (lineFeatures : list Feature) : result number :=
  match lineFeatures with
  | [] => Normal min
  | f :: rest =>
      match pointToLineDistance point f with
      | Normal d =>
          nearestDistanceToLines_from (if lt d min then d else min) point rest
      | Throw e => Throw e
      end
  end.

(** [nearestDistanceToLines(point, lineFeatures)]: [min] starts at
    [Infinity]. *)
Definition nearestDistanceToLines (point : Position) (lineFeatures : list Feature)
  : result number :=
  nearestDistanceToLines_from Infinity point lineFeatures.

(** [insidePolygon(point, polygonFeature)]: the library's test and nothing
    else. *)
Definition insidePolygon (point : Position) (polygonFeature : Feature) : result bool :=
  booleanPointInPolygon point polygonFeature.

End Geoutils.

(** ** The [App] component *)

Record LonLat : Type := mkLonLat {
  lon : Q;
  lat : Q
}.

Record OceanRegion : Type := mkRegion {
  region_bbox : Q * Q * Q * Q;
  insideEEZ : bool
}.

Definition oceanRegions : list OceanRegion :=
  [ (* Arabian Sea *)
    {| region_bbox := (68, 10, 75, 22); insideEEZ := true |};
    {| region_bbox := (60, 10, 68, 22); insideEEZ := false |};
    (* Bay of Bengal *)
    {| region_bbox := (82, 10, 88, 22); insideEEZ := true |};
    {| region_bbox := (88, 10, 95, 22); insideEEZ := false |};
    (* Indian Ocean *)
    {| region_bbox := (75, 6, 85, 10); insideEEZ := true |};
    {| region_bbox := (75, 2, 85, 6); insideEEZ := false |};
    (* Andaman Sea *)
    {| region_bbox := (92, 8, 98, 14); insideEEZ := true |};
    {| region_bbox := (98, 8, 104, 14); insideEEZ := false |} ]%Q.

(** The fallback of [getRandomDemoLocation]: [{ lon: 70, lat: 15 }]. *)
Definition fallbackLocation : LonLat := {| lon := 70; lat := 15 |}.

(** [array[i]] for the number [i = Math.floor(...)]; reading [.bbox] off the
    [undefined] of an index out of range throws. *)
Definition region_at (regions : list OceanRegion) (i : Z) : result OceanRegion :=
  if (i <? 0)%Z then Throw "TypeError: selectedRegion is undefined"
  else match nth_error regions (Z.to_nat i) with
       | Some r => Normal r
       | None => Throw "TypeError: selectedRegion is undefined"
       end.

Section Component.

Context {turf : Turf}.

(** The values [Math.random()] yields, in the order of the calls. *)
Variable randoms : nat -> Q.

(** [Math.random()]: the next value, and one more draw made. *)
Definition Math_random : M Q := fun st =>
  (Normal (randoms (draws st)),
   {| map_current := map_current st; eezData := eezData st; safety := safety st;
      alertMsg := alertMsg st; distToCoast := distToCoast st;
      calls := calls st; draws := S (draws st) |}).

(** [updateSafety(lon, lat)].  The [console.log] of the answer is left out:
    it reaches neither the state nor the map. *)
Definition updateSafety (lon lat : Q) : M unit := fun st =>
  match map_current st with
  | None => (Normal tt, st)
  | Some _ =>
      let featureCollection := eezData st in
      match primaryFeature featureCollection with
      | None => setSafety {| label := "EEZ data not loaded"; cls := "warn" |} st
      | Some eezFeature =>
          let pt := point lon lat in
          (inside <- lift (insidePolygon pt eezFeature) ;;
           if negb inside then
             let label := "Outside Indian EEZ! Alert Coast Guard" in
             let cls := "danger" in
             ifLayer "boat" (setPaintProperty "boat" "circle-color" "#FF0000") ;;
             setAlertMsg (Some label) ;;
             setSafety {| label := label; cls := cls |}
           else
             let label := "Inside Indian EEZ (Safe)" in
             let cls := "safe" in
             ifLayer "boat" (setPaintProperty "boat" "circle-color" "#FFD400") ;;
             setAlertMsg None ;;
             setSafety {| label := label; cls := cls |}) st
      end
  end.

(** [updateDistanceToEEZ(lon, lat)]: nothing without the map, [null] without
    a boundary set, and else the distance to the nearest point of the
    boundary lines, stored as [distKm.toFixed(2)]. *)
Definition updateDistanceToEEZ (lon lat : Q) : M unit := fun st =>
  match map_current st with
  | None => (Normal tt, st)
  | Some _ =>
      let pt := point lon lat in
      let featureCollection := eezData st in
      match primaryFeature featureCollection with
      | None => setDistToCoast None st
      | Some eezFeature =>
          (boundaryLine <- lift (polygonToLine eezFeature) ;;
           nearestPoint <- lift (nearestPointOnLine boundaryLine pt) ;;
           distKm <- lift (distance pt nearestPoint) ;;
           setDistToCoast (Some (toFixed2 distKm))) st
      end
  end.

(** [randomInBBox(bbox)]: one draw for the longitude, then one for the
    latitude. *)
Definition randomInBBox (bbox : Q * Q * Q * Q) : M LonLat :=
  let '(minX, minY, maxX, maxY) := bbox in
  rx <- Math_random ;;
  ry <- Math_random ;;
  ret {| lon := minX + rx * (maxX - minX);
         lat := minY + ry * (maxY - minY) |}%Q.

(** [Math.random() < 0.5]. *)
Definition below_half (r : Q) : bool := Qltb r (1 # 2).

(** The filter of [suitableRegions]. *)
Definition suitable (wantInside : bool) (region : OceanRegion) : bool :=
  if wantInside then insideEEZ region else negb (insideEEZ region).

(** [getRandomDemoLocation()]: a relation, a region tagged with it, a point
    in the region's box; with a boundary set the point is returned when the
    containment test agrees with the relation, and the fallback otherwise. *)
Definition getRandomDemoLocation : M LonLat :=
  r <- Math_random ;;
  let wantInside := below_half r in
  let suitableRegions := filter (suitable wantInside) oceanRegions in
  if (0 <? List.length suitableRegions)%nat then
    i <- Math_random ;;
    selectedRegion <-
      lift (region_at suitableRegions
              (Qfloor (i * inject_Z (Z.of_nat (List.length suitableRegions))))) ;;
    p <- randomInBBox (region_bbox selectedRegion) ;;
    (fun st =>
       match primaryFeature (eezData st) with
       | Some poly =>
           (inside <- lift (insidePolygon (point (lon p) (lat p)) poly) ;;
            if wantInside && inside then ret p
            else if negb wantInside && negb inside then ret p
            else ret fallbackLocation) st
       | None => ret p st
       end)
  else ret fallbackLocation.

End Component.

(** ** An implementation of the library interface

    [booleanPointInPolygon] and [polygonToLine] follow turf's own functions
    (release 6): the even-odd ray casting of [inRing] with its bounding-box
    shortcut and its holes, and the conversion of every ring of a polygon to
    a line.  The two distances are planar stand-ins for turf's spherical
    ones: the nearest point is the orthogonal projection onto each segment,
    and a length is the Euclidean length in degrees, to the millionth of a
    degree, at [km_per_degree].  A distance computed with them is not the
    figure turf gives, except where the geometry does not matter (the
    distance from a position to itself); what is stated of the component's
    distances is stated for every library, or for every library that obeys
    [RingLaws] below. *)

Module PlanarTurf.

Definition inBBox (pt : Position) (bbox : Q * Q * Q * Q) : bool :=
  let '(x, y) := pt in
  let '(b0, b1, b2, b3) := bbox in
  Qle_bool b0 x && Qle_bool b1 y && Qle_bool x b2 && Qle_bool y b3.

(** The pairs [(ring[i], ring[j])] the loop of [inRing] visits: [j] is the
    index before [i], the last one for [i = 0]. *)
Definition edges (ring : Ring) : list (Position * Position) :=
  match ring with
  | [] => []
  | p :: _ => combine ring (last ring p :: removelast ring)
  end.

Definition same_position (p q : Position) : bool :=
  Qeq_bool (fst p) (fst q) && Qeq_bool (snd p) (snd q).

Fixpoint inRing_loop (pt : Position) (ignoreBoundary : bool)
    (es : list (Position * Position)) (isInside : bool) : bool :=
  match es with
  | [] => isInside
  | ((xi, yi), (xj, yj)) :: rest =>
      let '(px, py) := pt in
      let onBoundary :=
        Qeq_bool (py * (xi - xj) + yi * (xj - px) + yj * (px - xi)) 0
        && Qle_bool ((xi - px) * (xj - px)) 0
        && Qle_bool ((yi - py) * (yj - py)) 0 in
      if onBoundary then negb ignoreBoundary
      else
        let intersect :=
          negb (Bool.eqb (Qltb py yi) (Qltb py yj))
          && Qltb px ((xj - xi) * (py - yi) / (yj - yi) + xi) in
        inRing_loop pt ignoreBoundary rest
          (if intersect then negb isInside else isInside)
  end%Q.

(** [inRing(pt, ring, ignoreBoundary)]; a ring that repeats its first
    position at the end loses the repetition first. *)
Definition inRing (pt : Position) (ring : Ring) (ignoreBoundary : bool) : result bool :=
  match ring with
  | [] => Throw "TypeError: ring[0] is undefined"
  | first :: _ =>
      let ring' :=
        if same_position first (last ring first) then removelast ring else ring in
      Normal (inRing_loop pt ignoreBoundary (edges ring') false)
  end.

(** The [while] over the holes of one polygon: is the point in one of them? *)
Fixpoint inHoles (pt : Position) (holes : list Ring) : result bool :=
  match holes with
  | [] => Normal false
  | hole :: rest =>
      match inRing pt hole true with
      | Normal true => Normal true
      | Normal false => inHoles pt rest
      | Throw e => Throw e
      end
  end.

(** The [for] over the polygons, left as soon as one holds the point. *)
Fixpoint inPolys (pt : Position) (polys : list (list Ring)) : result bool :=
  match polys with
  | [] => Normal false
  | [] :: _ => Throw "TypeError: ring is undefined"
  | (outer :: holes) :: rest =>
      match inRing pt outer false with
      | Normal true =>
          match inHoles pt holes with
          | Normal false => Normal true
          | Normal true => inPolys pt rest
          | Throw e => Throw e
          end
      | Normal false => inPolys pt rest
      | Throw e => Throw e
      end
  end.

Definition booleanPointInPolygon (pt : Position) (polygon : Feature) : result bool :=
  let skip :=
    match bbox polygon with
    | Some b => negb (inBBox pt b)
    | None => false
    end in
  if skip then Normal false
  else
    match geometry polygon with
    | Polygon coords => inPolys pt [coords]
    | MultiPolygon coords => inPolys pt coords
    | LineString _ | MultiLineString _ => Throw "TypeError: ring is undefined"
    end.

Definition lineString (coords : list Position) : result Feature :=
  if (List.length coords <? 2)%nat
  then Throw "coordinates must be an array of two or more positions"
  else Normal {| bbox := None; geometry := LineString coords |}.

(** [coordsToLine]: one ring gives a line string, several a multi-line
    string that holds every one of them. *)
Definition coordsToLine (coords : list Ring) : result Feature :=
  match coords with
  | [] => Throw "TypeError: coordinates is undefined"
  | [ring] => lineString ring
  | _ => Normal {| bbox := None; geometry := MultiLineString coords |}
  end.

Fixpoint coordsToLines (polys : list (list Ring)) : result (list Feature) :=
  match polys with
  | [] => Normal []
  | coords :: rest =>
      match coordsToLine coords with
      | Normal l =>
          match coordsToLines rest with
          | Normal ls => Normal (l :: ls)
          | Throw e => Throw e
          end
      | Throw e => Throw e
      end
  end.

Definition polygonToLine (poly : Feature) : result Lines :=
  match geometry poly with
  | Polygon coords =>
      match coordsToLine coords with
      | Normal l => Normal (LineFeature l)
      | Throw e => Throw e
      end
  | MultiPolygon coords =>
      match coordsToLines coords with
      | Normal ls => Normal (LineCollection ls)
      | Throw e => Throw e
      end
  | LineString _ | MultiLineString _ => Throw "invalid poly"
  end.

(** [flattenEach]: the coordinate lists of the line strings in [lines]. *)
Definition flattenFeature (f : Feature) : list (list Position) :=
  match geometry f with
  | LineString coords => [coords]
  | MultiLineString coords => coords
  | Polygon _ | MultiPolygon _ => []
  end.

Definition flatten (lines : Lines) : list (list Position) :=
  match lines with
  | LineFeature f => flattenFeature f
  | LineCollection fs => flat_map flattenFeature fs
  end.

(** The segments [(coords[i], coords[i + 1])] of a line. *)
Fixpoint segments (coords : list Position) : list (Position * Position) :=
  match coords with
  | a :: (b :: _) as rest => (a, b) :: segments rest
  | _ => []
  end.

Definition sqdist (p q : Position) : Q :=
  ((fst p - fst q) * (fst p - fst q) + (snd p - snd q) * (snd p - snd q))%Q.

(** The point of the segment [a b] nearest to [p] in the plane. *)
Definition project (p a b : Position) : Position :=
  let d2 := sqdist a b in
  if Qeq_bool d2 0 then a
  else
    let t := (((fst p - fst a) * (fst b - fst a)
               + (snd p - snd a) * (snd b - snd a)) / d2)%Q in
    let t := if Qltb t 0 then 0%Q else if Qltb 1 t then 1%Q else t in
    ((fst a + t * (fst b - fst a))%Q, (snd a + t * (snd b - snd a))%Q).

(** The nearest projection over the segments, [best] being the closest
    point so far and [bestd] its squared distance. *)
Fixpoint nearest_from (p : Position) (segs : list (Position * Position))
    (best : NearestPoint) (bestd : number) : NearestPoint :=
  match segs with
  | [] => best
  | (a, b) :: rest =>
      let c := project p a b in
      let d := Num (sqdist p c) in
      if lt d bestd
      then nearest_from p rest (Num (fst c), Num (snd c)) d
      else nearest_from p rest best bestd
  end.

Definition nearestPointOnLine (lines : Lines) (pt : Position) : result NearestPoint :=
  Normal (nearest_from pt (flat_map segments (flatten lines))
            (Infinity, Infinity) Infinity).

Definition km_per_degree : Q := 1111951 # 10000.

(** The square root of a rational, rounded down to the millionth. *)
Definition sqrt_micro (q : Q) : Q :=
  Z.sqrt (Qfloor (q * 1000000000000)) # 1000000.

Definition distance (from : Position) (to : NearestPoint) : result number :=
  match to with
  | (Num x, Num y) => Normal (Num (km_per_degree * sqrt_micro (sqdist from (x, y))))
  | _ => Normal NaN
  end.

Fixpoint min_sqdist (p : Position) (segs : list (Position * Position))
    (best : number) : number :=
  match segs with
  | [] => best
  | (a, b) :: rest =>
      let d := Num (sqdist p (project p a b)) in
      min_sqdist p rest (if lt d best then d else best)
  end.

Definition pointToLineDistance (pt : Position) (line : Feature) : result number :=
  match geometry line with
  | LineString coords =>
      match min_sqdist pt (segments coords) Infinity with
      | Num d2 => Normal (Num (km_per_degree * sqrt_micro d2))
      | other => Normal other
      end
  | _ => Throw "Invalid input to line: must be a 'LineString'"
  end.

Definition turf : Turf :=
  Build_Turf booleanPointInPolygon polygonToLine nearestPointOnLine
    distance pointToLineDistance.

End PlanarTurf.

(** ** Sample data: the square of the specification's scenario *)

Definition square (x0 y0 x1 y1 : Q) : Ring :=
  [(x0, y0); (x0, y1); (x1, y1); (x1, y0); (x0, y0)].

(** The square with corners (0,0), (0,10), (10,10), (10,0). *)
Definition squareFeature : Feature :=
  {| bbox := None; geometry := Polygon [square 0 0 10 10] |}.





(** A polygon whose only ring is empty: the library's test throws on it. *)
Definition emptyRingFeature : Feature :=
  {| bbox := None; geometry := Polygon [[]] |}.

(** Two lines below the point (5,5): the axis and the parallel at height 3. *)
Definition twoLines : list Feature :=
  [ {| bbox := None; geometry := LineString [(0, 0); (10, 0)]%Q |};
    {| bbox := None; geometry := LineString [(0, 3); (10, 3)]%Q |} ].

(** A mounted component: the map is there with its [boat] layer, and
    [eezData] holds one feature. *)
Definition mounted (f : Feature) : App :=
  {| map_current := Some {| layers := [("eez-fill", ""); ("eez-line", ""); ("boat", "#FFD400")] |};
     eezData := Some {| features := Some [f] |};
     safety := {| label := "Loading location..."; cls := "warn" |};
     alertMsg := None;
     distToCoast := None;
     calls := [];
     draws := 0 |}.

(** The map is there, the boundary is not loaded yet. *)
Definition mountedNoBoundary : App :=
  {| map_current := Some {| layers := [("eez-fill", ""); ("eez-line", ""); ("boat", "#FFD400")] |};
     eezData := None;
     safety := {| label := "Loading location..."; cls := "warn" |};
     alertMsg := None;
     distToCoast := None;
     calls := [];
     draws := 0 |}.

(** ** Notions the properties are stated with *)

(** The three safety states, read off the style class the way the sidebar's
    "Location Status" card reads it: [safe], [danger], anything else. *)
Inductive SafetyState : Type := Unknown | Inside | Outside.

Definition safetyState (s : Safety) : SafetyState :=
  if String.eqb (cls s) "safe" then Inside
  else if String.eqb (cls s) "danger" then Outside
  else Unknown.

(** A boundary set whose first feature is [eezFeature]. *)
Definition boundarySet (eezFeature : Feature) (others : list Feature)
  : option FeatureCollection :=
  Some {| features := Some (eezFeature :: others) |}.

(** One [updateSafety] per position, each in the state the one before left
    (a throw ends one call, not the ones after it). *)
Fixpoint classifyEach {turf : Turf} (pts : list Position) (st : App) : App :=
  match pts with
  | [] => st
  | (lon, lat) :: rest => classifyEach rest (snd (updateSafety lon lat st))
  end.

(** The calls that raise the alert, and those that clear it. *)
Definition raises (c : Call) : bool :=
  match c with SetAlertMsg (Some _) => true | _ => false end.

Definition clears (c : Call) : bool :=
  match c with SetAlertMsg None => true | _ => false end.

Definition raised (cs : list Call) : nat := List.length (filter raises cs).
Definition cleared (cs : list Call) : nat := List.length (filter clears cs).

(** The positions of [pts] that the library puts inside ([true]) or outside
    ([false]) the feature. *)
Definition answers {turf : Turf} (b : bool) (f : Feature) (p : Position) : bool :=
  match insidePolygon p f with
  | Normal b' => Bool.eqb b b'
  | Throw _ => false
  end.

Definition classified {turf : Turf} (b : bool) (f : Feature) (pts : list Position) : nat :=
  List.length (filter (answers b f) pts).

(** The calls one [updateSafety] makes for a containment answer, the [boat]
    layer being there or not. *)
Definition safetyCalls (hasBoat inside : bool) : list Call :=
  let label :=
    if inside then "Inside Indian EEZ (Safe)"
    else "Outside Indian EEZ! Alert Coast Guard" in
  (if hasBoat
   then [SetPaintProperty "boat" "circle-color" (if inside then "#FFD400" else "#FF0000")]
   else [])
  ++ [SetAlertMsg (if inside then None else Some label);
      SetSafety {| label := label; cls := if inside then "safe" else "danger" |}].

Definition hasLayer (id : string) (m : MapBox) : bool :=
  match getLayer id (layers m) with Some _ => true | None => false end.

(** No boundary set: [eezData] is absent, or has no [features], or has an
    empty list of them. *)
Definition noBoundary (d : option FeatureCollection) : Prop :=
  d = None \/
  exists fc, d = Some fc /\ (features fc = None \/ features fc = Some []).

(** The value of the local [distKm]: the library's distance from the point
    to the library's nearest point on the lines of the whole feature. *)
Definition distKm {turf : Turf} (pt : Position) (eezFeature : Feature) : result number :=
  match polygonToLine eezFeature with
  | Normal boundaryLine =>
      match nearestPointOnLine boundaryLine pt with
      | Normal nearestPoint => distance pt nearestPoint
      | Throw e => Throw e
      end
  | Throw e => Throw e
  end.


(** The relation the call draws: its first [Math.random()] is below 0.5. *)
Definition drawnRelation (randoms : nat -> Q) (st : App) : bool := below_half (randoms (draws st)).

(** The region the call selects with its second draw. *)
Definition drawnRegion (randoms : nat -> Q) (st : App) : result OceanRegion :=
  let suitableRegions := filter (suitable (drawnRelation randoms st)) oceanRegions in
  region_at suitableRegions
    (Qfloor (randoms (S (draws st))
             * inject_Z (Z.of_nat (List.length suitableRegions)))).

(** The point the call samples in a region with its third and fourth draws. *)
Definition drawnPoint (randoms : nat -> Q) (region : OceanRegion) (st : App) : LonLat :=
  let '(minX, minY, maxX, maxY) := region_bbox region in
  {| lon := minX + randoms (S (S (draws st))) * (maxX - minX);
     lat := minY + randoms (S (S (S (draws st)))) * (maxY - minY) |}%Q.

(** The state after [n] more draws. *)
Definition after_draws (n : nat) (st : App) : App :=
  {| map_current := map_current st; eezData := eezData st; safety := safety st;
     alertMsg := alertMsg st; distToCoast := distToCoast st;
     calls := calls st; draws := n + draws st |}.

(** [p] lies in the bounding box [bbox], borders included. *)
Definition inBox (p : LonLat) (bbox : Q * Q * Q * Q) : Prop :=
  let '(minLon, minLat, maxLon, maxLat) := bbox in
  (minLon <= lon p <= maxLon /\ minLat <= lat p <= maxLat)%Q.



(** ** Properties of [updateSafety] *)

Lemma getLayer_paint id value ls :
  getLayer id (paint id value ls) =
  match getLayer id ls with Some _ => Some value | None => None end.
Proof.
  induction ls as [|[i c] ls IH]; simpl; [reflexivity|].
  destruct (String.eqb i id) eqn:E; simpl; rewrite E; [reflexivity|exact IH].
Qed.

Lemma paint_paint id v w ls : paint id v (paint id w ls) = paint id v ls.
Proof.
  induction ls as [|[i c] ls IH]; simpl; [reflexivity|].
  destruct (String.eqb i id) eqn:E; simpl; rewrite E; [reflexivity|].
  now rewrite IH.
Qed.

Section UpdateSafety.

Context {turf : Turf}.

(** What one call does once the map and the boundary are there: nothing
    when the library throws, and else the calls of [safetyCalls], the new
    safety, the alert raised or cleared and the boat repainted. *)
Lemma updateSafety_loaded st m f others lon lat :
  map_current st = Some m ->
  eezData st = boundarySet f others ->
  updateSafety lon lat st =
  match insidePolygon (point lon lat) f with
  | Throw e => (Throw e, st)
  | Normal inside =>
      (Normal tt,
       {| map_current :=
            Some {| layers :=
                      if hasLayer "boat" m
                      then paint "boat" (if inside then "#FFD400" else "#FF0000") (layers m)
                      else layers m |};
          eezData := eezData st;
          safety := {| label := if inside then "Inside Indian EEZ (Safe)"
                                else "Outside Indian EEZ! Alert Coast Guard";
                       cls := if inside then "safe" else "danger" |};
          alertMsg := if inside then None
                      else Some "Outside Indian EEZ! Alert Coast Guard";
          distToCoast := distToCoast st;
          calls := calls st ++ safetyCalls (hasLayer "boat" m) inside;
          draws := draws st |})
  end.
Proof.
  intros Hm He. unfold updateSafety. rewrite Hm, He. cbn [boundarySet primaryFeature features].
  unfold bind, lift. destruct (insidePolygon (point lon lat) f) as [inside|e]; [|reflexivity].
  unfold hasLayer, safetyCalls.
  destruct inside; cbn [negb]; unfold ifLayer; rewrite Hm;
    destruct (getLayer "boat" (layers m)) eqn:G;
    unfold setPaintProperty, setAlertMsg, setSafety, record; cbn;
    rewrite ?Hm, ?He; cbn; rewrite <- ?app_assoc; destruct m; reflexivity.
Qed.

End UpdateSafety.

(** C1 (as amended).  Once the map is there and the boundary set has a first
    feature, [updateSafety] asks the library whether the point is in that
    first feature; when the answer is true the safety becomes Inside with the
    label "Inside Indian EEZ (Safe)", when it is false Outside with the label
    "Outside Indian EEZ! Alert Coast Guard". *)
Theorem updateSafety_classifies (turf : Turf) (st : App) (m : MapBox)
    (eezFeature : Feature) (others : list Feature) (lon lat : Q) (inside : bool) :
  map_current st = Some m ->
  eezData st = boundarySet eezFeature others ->
  insidePolygon (point lon lat) eezFeature = Normal inside ->
  fst (updateSafety lon lat st) = Normal tt /\
  safety (snd (updateSafety lon lat st)) =
    (if inside
     then {| label := "Inside Indian EEZ (Safe)"; cls := "safe" |}
     else {| label := "Outside Indian EEZ! Alert Coast Guard"; cls := "danger" |}) /\
  safetyState (safety (snd (updateSafety lon lat st))) =
    (if inside then Inside else Outside).
Proof.
  intros Hm He Hin.
  rewrite (updateSafety_loaded st m eezFeature others lon lat Hm He), Hin.
  destruct inside; repeat split.
Qed.

Lemma updateSafety_classifies_witness :
  safety (snd (@updateSafety PlanarTurf.turf 15 5 (mounted squareFeature))) =
    {| label := "Outside Indian EEZ! Alert Coast Guard"; cls := "danger" |}.
Proof.
  refine (proj1 (proj2 (updateSafety_classifies PlanarTurf.turf (mounted squareFeature)
                          _ squareFeature [] 15 5 false _ _ _)));
    vm_compute; reflexivity.
Defined.

(** C1 as stated fails on its labels: the square's centre is classified
    Inside and the point (15,5) Outside, and neither label is the one of the
    claim. *)
Lemma classify_labels_counterexample :
  @insidePolygon PlanarTurf.turf (point 5 5) squareFeature = Normal true /\
  label (safety (snd (@updateSafety PlanarTurf.turf 5 5 (mounted squareFeature))))
    <> "Inside EEZ (Safe)" /\
  @insidePolygon PlanarTurf.turf (point 15 5) squareFeature = Normal false /\
  label (safety (snd (@updateSafety PlanarTurf.turf 15 5 (mounted squareFeature))))
    <> "Outside EEZ — Alert".
Proof.
  repeat split; try (vm_compute; reflexivity); vm_compute; intros H; discriminate H.
Qed.

(** ** The alert across a sequence of classifications *)

Lemma raised_app l l' : raised (l ++ l') = (raised l + raised l')%nat.
Proof. unfold raised. now rewrite filter_app, length_app. Qed.

Lemma cleared_app l l' : cleared (l ++ l') = (cleared l + cleared l')%nat.
Proof. unfold cleared. now rewrite filter_app, length_app. Qed.

Lemma raised_safetyCalls hb inside :
  raised (safetyCalls hb inside) = if inside then 0%nat else 1%nat.
Proof. destruct hb, inside; reflexivity. Qed.

Lemma cleared_safetyCalls hb inside :
  cleared (safetyCalls hb inside) = if inside then 1%nat else 0%nat.
Proof. destruct hb, inside; reflexivity. Qed.

Section Alert.

Context {turf : Turf}.

Lemma classified_cons b f p pts :
  classified b f (p :: pts) =
  ((if answers b f p then 1 else 0) + classified b f pts)%nat.
Proof. unfold classified. cbn [filter]. now destruct (answers b f p). Qed.

(** A call keeps the map and the boundary where they are. *)
Lemma updateSafety_keeps st m f others lon lat :
  map_current st = Some m ->
  eezData st = boundarySet f others ->
  (exists m', map_current (snd (updateSafety lon lat st)) = Some m'
              /\ hasLayer "boat" m' = hasLayer "boat" m)
  /\ eezData (snd (updateSafety lon lat st)) = boundarySet f others.
Proof.
  intros Hm He. rewrite (updateSafety_loaded st m f others lon lat Hm He).
  destruct (insidePolygon (point lon lat) f) as [inside|e]; cbn.
  - split; [|exact He]. eexists; split; [reflexivity|].
    unfold hasLayer at 1 3. cbn.
    destruct (hasLayer "boat" m) eqn:Hb; unfold hasLayer in Hb.
    + rewrite getLayer_paint. destruct (getLayer "boat" (layers m)); [reflexivity|discriminate].
    + destruct (getLayer "boat" (layers m)); [discriminate|reflexivity].
  - split; [|exact He]. exists m. split; [exact Hm|reflexivity].
Qed.

Lemma classifyEach_counts pts : forall st m f others,
  map_current st = Some m ->
  eezData st = boundarySet f others ->
  raised (calls (classifyEach pts st)) = (raised (calls st) + classified false f pts)%nat /\
  cleared (calls (classifyEach pts st)) = (cleared (calls st) + classified true f pts)%nat.
Proof.
  induction pts as [|[lon lat] pts IH]; intros st m f others Hm He.
  - cbn. unfold classified. cbn. split; lia.
  - cbn [classifyEach].
    destruct (updateSafety_keeps st m f others lon lat Hm He) as [[m' [Hm' _]] He'].
    destruct (IH _ m' f others Hm' He') as [IHr IHc].
    rewrite IHr, IHc.
    rewrite (updateSafety_loaded st m f others lon lat Hm He).
    rewrite !classified_cons. unfold answers, point.
    destruct (insidePolygon (lon, lat) f) as [[|]|e]; cbn [snd calls Bool.eqb];
      rewrite ?raised_app, ?cleared_app, ?raised_safetyCalls, ?cleared_safetyCalls;
      split; lia.
Qed.

(** Asking again for the same position repeats the calls and changes
    nothing in the safety, the alert or the map. *)
Lemma updateSafety_again st m f others lon lat :
  map_current st = Some m ->
  eezData st = boundarySet f others ->
  safety (snd (updateSafety lon lat (snd (updateSafety lon lat st)))) =
    safety (snd (updateSafety lon lat st)) /\
  alertMsg (snd (updateSafety lon lat (snd (updateSafety lon lat st)))) =
    alertMsg (snd (updateSafety lon lat st)) /\
  map_current (snd (updateSafety lon lat (snd (updateSafety lon lat st)))) =
    map_current (snd (updateSafety lon lat st)).
Proof.
  intros Hm He.
  destruct (updateSafety_keeps st m f others lon lat Hm He) as [[m' [Hm' Hb]] He'].
  rewrite (updateSafety_loaded _ m' f others lon lat Hm' He').
  revert Hm' Hb. rewrite (updateSafety_loaded st m f others lon lat Hm He).
  destruct (insidePolygon (point lon lat) f) as [inside|e]; cbn; intros Hm' Hb.
  - injection Hm' as <-. repeat split. f_equal. f_equal.
    rewrite Hb. cbn. destruct (hasLayer "boat" m); [|reflexivity].
    now rewrite paint_paint.
  - repeat split; congruence.
Qed.

End Alert.

(** C2 (as amended).  With the map and the boundary there, every call that
    classifies a position as Outside makes the alert-raising call, whatever
    the state before, and every call that classifies as Inside makes the
    clearing call: over a sequence the raising calls number the Outside
    answers and the clearing calls the Inside answers.  An Outside answer
    leaves the alert set, an Inside answer leaves it cleared, and asking
    again for the same position changes neither the safety, nor the alert,
    nor the map. *)
Theorem alert_call_on_every_outside (turf : Turf) (st : App) (m : MapBox)
    (f : Feature) (others : list Feature) (pts : list Position) :
  map_current st = Some m ->
  eezData st = boundarySet f others ->
  raised (calls (classifyEach pts st)) = (raised (calls st) + classified false f pts)%nat /\
  cleared (calls (classifyEach pts st)) = (cleared (calls st) + classified true f pts)%nat /\
  (forall lon lat,
      insidePolygon (point lon lat) f = Normal false ->
      alertMsg (snd (updateSafety lon lat st)) = Some "Outside Indian EEZ! Alert Coast Guard") /\
  (forall lon lat,
      insidePolygon (point lon lat) f = Normal true ->
      alertMsg (snd (updateSafety lon lat st)) = None) /\
  (forall lon lat,
      safety (snd (updateSafety lon lat (snd (updateSafety lon lat st)))) =
        safety (snd (updateSafety lon lat st)) /\
      alertMsg (snd (updateSafety lon lat (snd (updateSafety lon lat st)))) =
        alertMsg (snd (updateSafety lon lat st)) /\
      map_current (snd (updateSafety lon lat (snd (updateSafety lon lat st)))) =
        map_current (snd (updateSafety lon lat st))).
Proof.
  intros Hm He.
  destruct (classifyEach_counts pts st m f others Hm He) as [Hr Hc].
  split; [exact Hr|]. split; [exact Hc|].
  split; [|split].
  - intros lon lat H. rewrite (updateSafety_loaded st m f others lon lat Hm He), H. reflexivity.
  - intros lon lat H. rewrite (updateSafety_loaded st m f others lon lat Hm He), H. reflexivity.
  - intros lon lat. exact (updateSafety_again st m f others lon lat Hm He).
Qed.

Lemma alert_call_on_every_outside_witness :
  raised (calls (@classifyEach PlanarTurf.turf [(5, 5); (15, 5); (15, 6); (5, 5)]%Q
                   (mounted squareFeature))) = 2%nat /\
  cleared (calls (@classifyEach PlanarTurf.turf [(5, 5); (15, 5); (15, 6); (5, 5)]%Q
                    (mounted squareFeature))) = 2%nat.
Proof.
  pose proof (alert_call_on_every_outside PlanarTurf.turf (mounted squareFeature)
                {| layers := [("eez-fill", ""); ("eez-line", ""); ("boat", "#FFD400")] |}
                squareFeature [] [(5, 5); (15, 5); (15, 6); (5, 5)]%Q eq_refl eq_refl)
    as [Hr [Hc _]].
  split; [exact Hr | exact Hc].
Defined.

(** C2 as stated fails: classified Outside twice in a row, the point (15,5)
    gets the alert-raising call twice, though the state enters Outside
    once. *)
Lemma alert_repeated_counterexample :
  @insidePolygon PlanarTurf.turf (point 15 5) squareFeature = Normal false /\
  calls (@classifyEach PlanarTurf.turf [(15, 5); (15, 5)]%Q (mounted squareFeature)) =
    [ SetPaintProperty "boat" "circle-color" "#FF0000";
      SetAlertMsg (Some "Outside Indian EEZ! Alert Coast Guard");
      SetSafety {| label := "Outside Indian EEZ! Alert Coast Guard"; cls := "danger" |};
      SetPaintProperty "boat" "circle-color" "#FF0000";
      SetAlertMsg (Some "Outside Indian EEZ! Alert Coast Guard");
      SetSafety {| label := "Outside Indian EEZ! Alert Coast Guard"; cls := "danger" |} ] /\
  raised (calls (@classifyEach PlanarTurf.turf [(15, 5); (15, 5)]%Q (mounted squareFeature)))
    = 2%nat.
Proof. repeat split; vm_compute; reflexivity. Qed.

(** ** Properties of [updateDistanceToEEZ] *)

Lemma noBoundary_primaryFeature d : noBoundary d <-> primaryFeature d = None.
Proof.
  unfold noBoundary, primaryFeature. split.
  - intros [->|[fc [-> [->| ->]]]]; reflexivity.
  - destruct d as [fc|]; [|now left]. right. exists fc. split; [reflexivity|].
    destruct (features fc) as [[|f fs]|]; [now right|discriminate|now left].
Qed.

Section Distance.

Context {turf : Turf}.

(** What one call does once the map and the boundary are there: nothing
    when the library throws, and else one [setDistToCoast] with [distKm]
    formatted by [toFixed(2)]. *)
Lemma updateDistanceToEEZ_loaded st m f others lon lat :
  map_current st = Some m ->
  eezData st = boundarySet f others ->
  updateDistanceToEEZ lon lat st =
  match distKm (point lon lat) f with
  | Throw e => (Throw e, st)
  | Normal d =>
      (Normal tt,
       {| map_current := map_current st; eezData := eezData st; safety := safety st;
          alertMsg := alertMsg st; distToCoast := Some (toFixed2 d);
          calls := calls st ++ [SetDistToCoast (Some (toFixed2 d))];
          draws := draws st |})
  end.
Proof.
  intros Hm He. unfold updateDistanceToEEZ, distKm. rewrite Hm, He.
  cbn [boundarySet primaryFeature features]. unfold bind, lift.
  destruct (polygonToLine f) as [lines|e]; [|reflexivity].
  destruct (nearestPointOnLine lines (point lon lat)) as [np|e]; [|reflexivity].
  destruct (distance (point lon lat) np) as [d|e]; [|reflexivity].
  unfold setDistToCoast, record. now rewrite Hm, He.
Qed.

End Distance.

(** C8 (as amended).  [updateDistanceToEEZ] returns no number: the
    library's distance stays in the local [distKm], and what the function
    publishes is [distKm.toFixed(2)], the rounding being applied once, to
    the library's own value.  So the function yields the same for two
    points exactly when their distances have the same two decimals,
    however the distances differ beyond them. *)
Theorem distance_published_rounded (turf : Turf) (st : App) (m : MapBox)
    (f : Feature) (others : list Feature) (lon lat lon' lat' : Q)
    (lines : Lines) (np np' : NearestPoint) (d d' : number) :
  map_current st = Some m ->
  eezData st = boundarySet f others ->
  polygonToLine f = Normal lines ->
  nearestPointOnLine lines (point lon lat) = Normal np ->
  distance (point lon lat) np = Normal d ->
  nearestPointOnLine lines (point lon' lat') = Normal np' ->
  distance (point lon' lat') np' = Normal d' ->
  fst (updateDistanceToEEZ lon lat st) = Normal tt /\
  distToCoast (snd (updateDistanceToEEZ lon lat st)) = Some (toFixed2 d) /\
  distToCoast (snd (updateDistanceToEEZ lon' lat' st)) = Some (toFixed2 d') /\
  (toFixed2 d = toFixed2 d' <->
   updateDistanceToEEZ lon lat st = updateDistanceToEEZ lon' lat' st).
Proof.
  intros Hm He Hl Hn Hd Hn' Hd'.
  assert (K : distKm (point lon lat) f = Normal d)
    by (unfold distKm; now rewrite Hl, Hn).
  assert (K' : distKm (point lon' lat') f = Normal d')
    by (unfold distKm; now rewrite Hl, Hn').
  rewrite (updateDistanceToEEZ_loaded st m f others lon lat Hm He), K.
  rewrite (updateDistanceToEEZ_loaded st m f others lon' lat' Hm He), K'.
  cbn [fst snd distToCoast]. repeat split.
  - intros ->. reflexivity.
  - intros H. injection H as H _. exact H.
Qed.

Lemma distance_published_rounded_witness :
  @updateDistanceToEEZ PlanarTurf.turf (-1 # 100000) (-1 # 100000) (mounted squareFeature)
  = @updateDistanceToEEZ PlanarTurf.turf (-2 # 100000) (-2 # 100000) (mounted squareFeature).
Proof.
  edestruct (distance_published_rounded PlanarTurf.turf (mounted squareFeature)
               {| layers := [("eez-fill", ""); ("eez-line", ""); ("boat", "#FFD400")] |}
               squareFeature [] (-1 # 100000) (-1 # 100000) (-2 # 100000) (-2 # 100000))
    as (_ & _ & _ & H);
    [ reflexivity | reflexivity
    | vm_compute; reflexivity | vm_compute; reflexivity | vm_compute; reflexivity
    | vm_compute; reflexivity | vm_compute; reflexivity | ].
  apply H. vm_compute. reflexivity.
Defined.

(** C8 as stated fails.  Two points off the corner (0,0) of the square:
    the library's distances are not zero, differ, and differ by less than
    0.005 km; the function yields the same for both, the text 0.00. *)
Lemma rounded_distance_counterexample :
  exists d d' : Q,
    @distKm PlanarTurf.turf (point (-1 # 100000) (-1 # 100000)) squareFeature
      = Normal (Num d) /\
    @distKm PlanarTurf.turf (point (-2 # 100000) (-2 # 100000)) squareFeature
      = Normal (Num d') /\
    (0 < d)%Q /\ (d < d')%Q /\ (d' - d < 5 # 1000)%Q /\
    @updateDistanceToEEZ PlanarTurf.turf (-1 # 100000) (-1 # 100000) (mounted squareFeature)
    = @updateDistanceToEEZ PlanarTurf.turf (-2 # 100000) (-2 # 100000)
        (mounted squareFeature) /\
    distToCoast
      (snd (@updateDistanceToEEZ PlanarTurf.turf (-1 # 100000) (-1 # 100000)
              (mounted squareFeature)))
    = Some "0.00".
Proof.
  eexists. eexists.
  split; [vm_compute; reflexivity|]. split; [vm_compute; reflexivity|].
  repeat split; vm_compute; reflexivity.
Qed.

(** ** The distance on the planar library *)




Lemma Qltb_true x y : Qltb x y = true -> (x < y)%Q.
Proof.
  unfold Qltb. intros H. apply negb_true_iff in H.
  apply Qnot_le_lt. intros L. apply Qle_bool_iff in L. congruence.
Qed.

Lemma Qltb_false x y : Qltb x y = false -> (y <= x)%Q.
Proof.
  unfold Qltb. intros H. apply negb_false_iff in H. now apply Qle_bool_iff.
Qed.





(** ** The distance and the rings of the boundary *)













(** ** Properties of [getRandomDemoLocation] *)

Section Sampler.

Context {turf : Turf}.
Variable randoms : nat -> Q.

(** The call, step by step: the relation, the region, the point, and then
    either the point itself (no boundary set), or the one containment test
    that decides between the point and the fallback. *)
Lemma getRandomDemoLocation_steps st :
  getRandomDemoLocation randoms st =
  match drawnRegion randoms st with
  | Throw e => (Throw e, after_draws 2 st)
  | Normal region =>
      let p := drawnPoint randoms region st in
      (match primaryFeature (eezData st) with
       | None => Normal p
       | Some poly =>
           match insidePolygon (point (lon p) (lat p)) poly with
           | Normal inside =>
               Normal (if Bool.eqb (drawnRelation randoms st) inside then p else fallbackLocation)
           | Throw e => Throw e
           end
       end, after_draws 4 st)
  end.
Proof.
  unfold getRandomDemoLocation, drawnRegion, drawnRelation, bind, Math_random, lift.
  cbn [draws].
  destruct (below_half (randoms (draws st))) eqn:W;
    cbn [filter suitable oceanRegions insideEEZ negb List.length Nat.ltb Nat.leb
         draws map_current eezData safety alertMsg distToCoast calls];
    match goal with
    | |- context [region_at ?l ?i] => destruct (region_at l i) as [region|e]
    end; try reflexivity;
    unfold randomInBBox, drawnPoint;
    destruct (region_bbox region) as [[[minX minY] maxX] maxY];
    unfold bind, Math_random, ret, lift;
    cbn [draws map_current eezData safety alertMsg distToCoast calls];
    (destruct (primaryFeature (eezData st)) as [poly|]; [|reflexivity]);
    match goal with
    | |- context [insidePolygon ?p poly] => destruct (insidePolygon p poly) as [[|]|e]
    end; reflexivity.
Qed.

Hypothesis randoms_range : forall n, (0 <= randoms n < 1)%Q.

Lemma floor_of_draw r (n : Z) :
  (0 < n)%Z -> (0 <= r < 1)%Q -> (0 <= Qfloor (r * inject_Z n) < n)%Z.
Proof.
  intros Hn [H0 H1].
  assert (Hq : (inject_Z 0 < inject_Z n)%Q) by (rewrite <- Zlt_Qlt; exact Hn).
  change (inject_Z 0) with 0%Q in Hq.
  split.
  - change 0%Z with (Qfloor 0). apply Qfloor_resp_le. nra.
  - rewrite Zlt_Qlt. apply Qle_lt_trans with (r * inject_Z n)%Q; [apply Qfloor_le|nra].
Qed.

(** With draws in [0, 1) the call selects a region of the catalog, tagged
    with the relation it drew. *)
Lemma drawnRegion_suitable st :
  exists region,
    drawnRegion randoms st = Normal region /\
    In region oceanRegions /\
    insideEEZ region = drawnRelation randoms st.
Proof.
  unfold drawnRegion.
  destruct (drawnRelation randoms st);
    cbn [filter suitable oceanRegions insideEEZ negb List.length];
    pose proof (floor_of_draw (randoms (S (draws st))) 4 eq_refl
                  (randoms_range (S (draws st)))) as Hi;
    change (Z.of_nat 4) with 4%Z;
    set (i := Qfloor (randoms (S (draws st)) * inject_Z 4)) in *;
    assert (Hc : i = 0%Z \/ i = 1%Z \/ i = 2%Z \/ i = 3%Z) by lia;
    destruct Hc as [-> | [-> | [-> | ->]]];
    eexists; (split; [reflexivity|]); cbn; intuition.
Qed.

(** A point sampled in a region lies in its bounding box. *)
Lemma drawnPoint_inBox region st :
  In region oceanRegions -> inBox (drawnPoint randoms region st) (region_bbox region).
Proof.
  intros Hin. unfold inBox, drawnPoint.
  pose proof (randoms_range (S (S (draws st)))) as Hx.
  pose proof (randoms_range (S (S (S (draws st))))) as Hy.
  cbn in Hin.
  repeat (destruct Hin as [<- | Hin]); try contradiction;
    cbn [region_bbox lon lat]; split; split; nra.
Qed.

End Sampler.

(** C5.  With a boundary set that has a first feature, a point returned by
    [getRandomDemoLocation] either passes the containment test with the
    relation the call drew, or is the fixed fallback, returned because the
    sampled point failed that test. *)
Theorem sample_has_drawn_relation (turf : Turf) (randoms : nat -> Q) (st st' : App)
    (poly : Feature) (others : list Feature) (p : LonLat) :
  eezData st = boundarySet poly others ->
  getRandomDemoLocation randoms st = (Normal p, st') ->
  insidePolygon (point (lon p) (lat p)) poly = Normal (drawnRelation randoms st)
  \/ (p = fallbackLocation /\
      exists region,
        drawnRegion randoms st = Normal region /\
        insidePolygon (point (lon (drawnPoint randoms region st))
                             (lat (drawnPoint randoms region st))) poly
          = Normal (negb (drawnRelation randoms st))).
Proof.
  intros He. rewrite getRandomDemoLocation_steps.
  destruct (drawnRegion randoms st) as [region|e]; [|discriminate].
  rewrite He. cbn [boundarySet primaryFeature features].
  destruct (insidePolygon (point (lon (drawnPoint randoms region st))
                                 (lat (drawnPoint randoms region st))) poly)
    as [inside|e] eqn:E; [|discriminate].
  destruct (drawnRelation randoms st), inside; cbn [Bool.eqb];
    intros H; injection H as <- _;
    solve [ left; exact E
          | right; split; [reflexivity|]; exists region; split; [reflexivity|exact E] ].
Qed.

Lemma sample_has_drawn_relation_witness :
  exists p,
    fst (@getRandomDemoLocation PlanarTurf.turf (fun _ => 3 # 4) (mounted squareFeature))
      = Normal p /\
    @insidePolygon PlanarTurf.turf (point (lon p) (lat p)) squareFeature
      = Normal (below_half (3 # 4)).
Proof.
  eexists. split; [vm_compute; reflexivity|].
  edestruct (sample_has_drawn_relation PlanarTurf.turf (fun _ => 3 # 4)
               (mounted squareFeature)) as [H|[H _]];
    [ reflexivity | vm_compute; reflexivity | exact H | discriminate H ].
Defined.

(** C6 (as amended).  [getRandomDemoLocation] is a total function that makes
    exactly four draws and at most one containment test: there is one
    attempt and no loop.  With draws in [0, 1) it returns the sampled point
    when there is no boundary set, and with one it returns the sampled point
    or, when the test disagrees, the fallback; when the library's test
    throws it throws the same error, so it returns a point whenever that
    test answers. *)
Theorem sampler_returns_after_one_attempt (turf : Turf) (randoms : nat -> Q) (st : App) :
  (forall n, (0 <= randoms n < 1)%Q) ->
  draws (snd (getRandomDemoLocation randoms st)) = (4 + draws st)%nat /\
  (exists region,
      drawnRegion randoms st = Normal region /\
      match primaryFeature (eezData st) with
      | None =>
          fst (getRandomDemoLocation randoms st) = Normal (drawnPoint randoms region st)
      | Some poly =>
          match insidePolygon (point (lon (drawnPoint randoms region st))
                                     (lat (drawnPoint randoms region st))) poly with
          | Normal inside =>
              fst (getRandomDemoLocation randoms st) =
                Normal (if Bool.eqb (drawnRelation randoms st) inside
                        then drawnPoint randoms region st
                        else fallbackLocation)
          | Throw e => fst (getRandomDemoLocation randoms st) = Throw e
          end
      end) /\
  ((forall poly pt, primaryFeature (eezData st) = Some poly ->
                    throws (insidePolygon pt poly) = false) ->
   exists p, fst (getRandomDemoLocation randoms st) = Normal p).
Proof.
  intros Hr.
  destruct (drawnRegion_suitable randoms Hr st) as [region [Hreg _]].
  rewrite getRandomDemoLocation_steps, Hreg. cbn [fst snd].
  split; [reflexivity|]. split.
  - exists region. split; [reflexivity|].
    destruct (primaryFeature (eezData st)) as [poly|]; [|reflexivity].
    destruct (insidePolygon _ poly); reflexivity.
  - intros Hlib.
    destruct (primaryFeature (eezData st)) as [poly|]; [|eexists; reflexivity].
    specialize (Hlib poly (point (lon (drawnPoint randoms region st))
                                 (lat (drawnPoint randoms region st))) eq_refl).
    destruct (insidePolygon _ poly); [eexists; reflexivity|discriminate].
Qed.

Lemma quarter_in_unit (n : nat) : (0 <= (fun _ : nat => 1 # 4) n < 1)%Q.
Proof. split; [discriminate|reflexivity]. Defined.

Lemma sampler_returns_after_one_attempt_witness :
  draws (snd (@getRandomDemoLocation PlanarTurf.turf (fun _ => 1 # 4)
                (mounted squareFeature))) = 4%nat /\
  fst (@getRandomDemoLocation PlanarTurf.turf (fun _ => 1 # 4) (mounted squareFeature))
    = Normal fallbackLocation.
Proof.
  destruct (sampler_returns_after_one_attempt PlanarTurf.turf (fun _ => 1 # 4)
              (mounted squareFeature) quarter_in_unit) as [Hd _].
  split; [exact Hd | vm_compute; reflexivity].
Defined.

(** C6 as stated fails: on a boundary whose ring is empty the containment
    test throws, and the call throws with it instead of falling back. *)
Lemma sampler_throws_counterexample :
  throws (fst (@getRandomDemoLocation PlanarTurf.turf (fun _ => 1 # 4)
                 (mounted emptyRingFeature))) = true /\
  throws (@insidePolygon PlanarTurf.turf (point 70 15) emptyRingFeature) = true.
Proof. split; vm_compute; reflexivity. Qed.

(** C9.  With no boundary set and draws in [0, 1), [getRandomDemoLocation]
    makes no containment test and returns the sampled point, which lies in
    the bounding box of a region of the catalog tagged with the relation the
    call drew. *)
Theorem sample_without_boundary_in_box (turf : Turf) (randoms : nat -> Q) (st : App) :
  (forall n, (0 <= randoms n < 1)%Q) ->
  noBoundary (eezData st) ->
  exists region,
    In region oceanRegions /\
    insideEEZ region = drawnRelation randoms st /\
    fst (getRandomDemoLocation randoms st) = Normal (drawnPoint randoms region st) /\
    inBox (drawnPoint randoms region st) (region_bbox region).
Proof.
  intros Hr Hno. apply noBoundary_primaryFeature in Hno.
  destruct (drawnRegion_suitable randoms Hr st) as [region [Hreg [Hin Htag]]].
  exists region. split; [exact Hin|]. split; [exact Htag|]. split.
  - rewrite getRandomDemoLocation_steps, Hreg, Hno. reflexivity.
  - exact (drawnPoint_inBox randoms Hr region st Hin).
Qed.

Lemma sample_without_boundary_in_box_witness :
  exists region,
    In region oceanRegions /\
    insideEEZ region = true /\
    fst (@getRandomDemoLocation PlanarTurf.turf (fun _ => 1 # 4) mountedNoBoundary)
      = Normal (drawnPoint (fun _ => 1 # 4) region mountedNoBoundary) /\
    inBox (drawnPoint (fun _ => 1 # 4) region mountedNoBoundary) (region_bbox region).
Proof.
  exact (sample_without_boundary_in_box PlanarTurf.turf (fun _ => 1 # 4) mountedNoBoundary
           quarter_in_unit (or_introl eq_refl)).
Defined.

(** ** Properties of [src/lib/geoutils.js] *)








(** *** The order of numbers *)

Lemma lt_le a b : isNaN a = false -> isNaN b = false -> lt a b = true -> le a b.
Proof.
  destruct a, b; cbn; try discriminate; try tauto.
  intros _ _ H. apply Qlt_le_weak. now apply Qltb_true.
Qed.

Lemma not_lt_le a b : isNaN a = false -> isNaN b = false -> lt a b = false -> le b a.
Proof.
  destruct a, b; cbn; try discriminate; try tauto.
  intros _ _ H. now apply Qltb_false.
Qed.

Lemma le_trans a b c : le a b -> le b c -> le a c.
Proof.
  destruct a, b, c; cbn; try tauto. apply Qle_trans.
Qed.

Lemma le_refl a : isNaN a = false -> le a a.
Proof. destruct a; cbn; try discriminate; try tauto. intros _. apply Qle_refl. Qed.

Lemma nonneg_isNaN a : nonneg a -> isNaN a = false.
Proof. destruct a; cbn; tauto. Qed.

Section NearestDistance.

Context {turf : Turf}.

(** The loop keeps a lower bound: from a minimum [min] it ends on [min] or
    on one of the distances, below [min] and below every distance. *)
Lemma nearestDistanceToLines_from_min point lineFeatures : forall ds min,
  Forall2 (fun f d => pointToLineDistance point f = Normal d) lineFeatures ds ->
  Forall nonneg ds ->
  nonneg min ->
  exists m,
    nearestDistanceToLines_from min point lineFeatures = Normal m /\
    nonneg m /\ le m min /\
    (forall d, In d ds -> le m d) /\
    (m = min \/ In m ds).
Proof.
  induction lineFeatures as [|f fs IH]; intros ds min H2 Hds Hmin.
  - inversion H2; subst. exists min. cbn. repeat split; auto.
    + apply le_refl. now apply nonneg_isNaN.
    + intros d [].
  - inversion H2 as [|? d ? ds' Hd H2']; subst.
    inversion Hds as [|? ? Hdn Hds']; subst.
    cbn [nearestDistanceToLines_from]. rewrite Hd.
    pose proof (nonneg_isNaN _ Hdn) as Nd. pose proof (nonneg_isNaN _ Hmin) as Nm.
    destruct (lt d min) eqn:E.
    + destruct (IH ds' d H2' Hds' Hdn) as [m [Hm [Hn [Hle [Hall Hor]]]]].
      exists m. repeat split; auto.
      * apply le_trans with d; [exact Hle|now apply lt_le].
      * intros d0 [<-|Hin]; [exact Hle|now apply Hall].
      * right. destruct Hor as [->|Hin]; [now left|now right].
    + destruct (IH ds' min H2' Hds' Hmin) as [m [Hm [Hn [Hle [Hall Hor]]]]].
      exists m. repeat split; auto.
      * intros d0 [<-|Hin]; [|now apply Hall].
        apply le_trans with min; [exact Hle|now apply not_lt_le].
      * destruct Hor as [->|Hin]; [now left|right; now right].
Qed.

End NearestDistance.

(** C10.  [nearestDistanceToLines] returns [Infinity] for an empty list of
    lines, without a call to the library.  When the library answers a
    distance, zero or more, for every line, it returns the minimum of these
    distances: one of them (for a list that is not empty), below all of
    them, and itself zero or more. *)
Theorem nearestDistanceToLines_minimum (turf : Turf) (point : Position)
    (lineFeatures : list Feature) (ds : list number) :
  Forall2 (fun f d => pointToLineDistance point f = Normal d) lineFeatures ds ->
  Forall nonneg ds ->
  nearestDistanceToLines point [] = Normal Infinity /\
  exists m,
    nearestDistanceToLines point lineFeatures = Normal m /\
    nonneg m /\
    (forall d, In d ds -> le m d) /\
    (lineFeatures = [] -> m = Infinity) /\
    (lineFeatures <> [] -> In m ds).
Proof.
  intros H2 Hds. split; [reflexivity|].
  destruct (nearestDistanceToLines_from_min point lineFeatures ds Infinity H2 Hds I)
    as [m [Hm [Hn [_ [Hall Hor]]]]].
  exists m. split; [exact Hm|]. split; [exact Hn|]. split; [exact Hall|]. split.
  - intros ->. cbn in Hm. now injection Hm as <-.
  - intros Hne. destruct Hor as [->|Hin]; [|exact Hin].
    destruct H2 as [|f d fs ds' _ _]; [contradiction|].
    specialize (Hall d (or_introl eq_refl)).
    inversion Hds as [|? ? Hdn _]; subst.
    destruct d; cbn in Hall, Hdn; try contradiction. now left.
Qed.

Lemma nearestDistanceToLines_minimum_witness :
  exists m,
    @nearestDistanceToLines PlanarTurf.turf (point 5 5) twoLines = Normal m /\
    toFixed2 m = "222.39".
Proof.
  edestruct (nearestDistanceToLines_minimum PlanarTurf.turf (point 5 5) twoLines)
    as [_ [m [Hm _]]].
  - constructor; [vm_compute; reflexivity|].
    constructor; [vm_compute; reflexivity|]. constructor.
  - repeat constructor; cbn; discriminate.
  - exists m. split; [exact Hm|].
    revert Hm. vm_compute. intros Hm. injection Hm as <-. reflexivity.
Defined.

(** ** What each function leaves alone *)

(** X1.  Without a boundary set, [updateSafety] makes one call, [setSafety], and
    touches neither the alert nor the map: an alert raised before stays. *)
Theorem updateSafety_unknown_keeps_alert (turf : Turf) (st : App) (m : MapBox)
    (lon lat : Q) :
  map_current st = Some m ->
  noBoundary (eezData st) ->
  calls (snd (updateSafety lon lat st)) =
    calls st ++ [SetSafety {| label := "EEZ data not loaded"; cls := "warn" |}] /\
  alertMsg (snd (updateSafety lon lat st)) = alertMsg st /\
  map_current (snd (updateSafety lon lat st)) = map_current st.
Proof.
  intros Hm H. apply noBoundary_primaryFeature in H.
  unfold updateSafety. rewrite Hm, H. cbn. repeat split. exact Hm.
Qed.

Lemma updateSafety_unknown_keeps_alert_witness :
  calls (snd (@updateSafety PlanarTurf.turf 85 12 mountedNoBoundary)) =
    [SetSafety {| label := "EEZ data not loaded"; cls := "warn" |}].
Proof.
  exact (proj1 (updateSafety_unknown_keeps_alert PlanarTurf.turf mountedNoBoundary
                  {| layers := [("eez-fill", ""); ("eez-line", ""); ("boat", "#FFD400")] |}
                  85 12 eq_refl (or_introl eq_refl))).
Defined.

(** X2.  [updateSafety] never touches the distance, the boundary set or the
    draws, whatever the library answers. *)
Theorem updateSafety_frame (turf : Turf) (st : App) (lon lat : Q) :
  distToCoast (snd (updateSafety lon lat st)) = distToCoast st /\
  eezData (snd (updateSafety lon lat st)) = eezData st /\
  draws (snd (updateSafety lon lat st)) = draws st.
Proof.
  unfold updateSafety.
  destruct (map_current st) as [m|] eqn:Hm; [|repeat split].
  destruct (primaryFeature (eezData st)) as [f|]; [|repeat split].
  unfold bind, lift. destruct (insidePolygon (point lon lat) f) as [[|]|e];
    cbn [negb]; unfold ifLayer; rewrite ?Hm;
    try destruct (getLayer "boat" (layers m)); repeat split.
Qed.

(** X3.  [updateDistanceToEEZ] never touches the safety, the alert, the map, the
    boundary set or the draws. *)
Theorem updateDistanceToEEZ_frame (turf : Turf) (st : App) (lon lat : Q) :
  safety (snd (updateDistanceToEEZ lon lat st)) = safety st /\
  alertMsg (snd (updateDistanceToEEZ lon lat st)) = alertMsg st /\
  map_current (snd (updateDistanceToEEZ lon lat st)) = map_current st /\
  eezData (snd (updateDistanceToEEZ lon lat st)) = eezData st /\
  draws (snd (updateDistanceToEEZ lon lat st)) = draws st.
Proof.
  unfold updateDistanceToEEZ.
  destruct (map_current st) as [m|] eqn:Hm;
    [|cbn; rewrite ?Hm; repeat split].
  destruct (primaryFeature (eezData st)) as [f|];
    [|cbn; rewrite ?Hm; repeat split].
  unfold bind, lift.
  destruct (polygonToLine f) as [lines|e];
    [|cbn; rewrite ?Hm; repeat split].
  destruct (nearestPointOnLine lines (point lon lat)) as [np|e];
    [|cbn; rewrite ?Hm; repeat split].
  destruct (distance (point lon lat) np) as [d|e];
    cbn; rewrite ?Hm; repeat split.
Qed.

(** X4.  [getRandomDemoLocation] changes nothing but the count of draws, and
    makes no call on a setter or on the map. *)
Theorem getRandomDemoLocation_frame (turf : Turf) (randoms : nat -> Q) (st : App) :
  exists n,
    (n = 2 \/ n = 4)%nat /\
    snd (getRandomDemoLocation randoms st) = after_draws n st.
Proof.
  rewrite getRandomDemoLocation_steps.
  destruct (drawnRegion randoms st); [exists 4%nat|exists 2%nat]; split; auto.
Qed.

(** * The component around the three functions

    The rest of [App]: the position, the marine data and its debounced
    fetch, the map's sources, style and camera, the handlers of the buttons,
    the inputs and the map's events, the emergency alert and what is
    rendered.

    Conventions of this part.
    - A coordinate that reaches a handler is a finite number or [null]
      ([pos] starts as [{ lat: null, lon: null }]): a [Coord].
    - A handler reads the state of the render it was created in.  The
      handlers of the buttons and inputs are created at every render and see
      the current state.  The callbacks registered in the first effect (the
      map's [load] and [style.load], the first [getCurrentPosition]) see the
      state of the first render for good: [pos] with its two [null]s and
      [eezData] equal to [null].  [seeing] runs a handler with the [eezData]
      of its render; setters and refs ([map.current], [marineDebounceRef])
      always act on the current state.
    - A timer, a fetch and a geolocation callback are events of their own:
      the page is a state machine, [handle] its step. *)

(** ** The page *)

Definition centerDefault : Position := (85, 12)%Q.

Inductive StyleKey : Type := standard | satellite | infrared.

Definition MAP_STYLES (key : StyleKey) : string :=
  match key with
  | standard => "mapbox://styles/mapbox/streets-v12"
  | satellite => "mapbox://styles/mapbox/satellite-v9"
  | infrared => "mapbox://styles/mapbox/dark-v11"
  end.

(** A number or [null]. *)
Definition Coord : Type := option Q.

(** The [pos] state. *)
Record Pos : Type := mkPos {
  pos_lon : Coord;
  pos_lat : Coord
}.

(** The answer of the marine service, as far as the page reads it:
    [hourly.wave_height], each member absent or [null] at will. *)
Record Hourly : Type := mkHourly {
  wave_height : option (list (option number))
}.

Record Marine : Type := mkMarine {
  hourly : option Hourly
}.

(** The data of the [eez] source: the URL given to the map, or the parsed
    GeoJSON. *)
Inductive SourceData : Type :=
| FromUrl (url : string)
| FromGeojson (data : FeatureCollection).

(** The map beyond its layers: the style it shows and the one it was asked
    for and has not loaded yet, its two sources and the target of the last
    camera move. *)
Record MapRest : Type := mkMapRest {
  styleUrl : option string;
  requestedStyle : option string;
  eezSource : option SourceData;
  boatSource : option Position;
  camera : Position * Z
}.

(** The debounce of the marine fetch: the ref, the timers that have not
    fired (identifier and the [(lat, lon)] of their callback), the next
    identifier [setTimeout] hands out, and the requests in flight. *)
Record Debounce : Type := mkDebounce {
  marineDebounceRef : option positive;
  timers : list (positive * (Coord * Coord));
  nextTimer : positive;
  fetches : list (Coord * Coord)
}.

Record Page : Type := mkPage {
  app : App;
  pos : Pos;
  marineData : option Marine;
  marineLoading : bool;
  isDemoMode : bool;
  mapStyle : StyleKey;
  mapRest : MapRest;
  debounce : Debounce;
  alerts : list string
}.

Definition initialPage : Page :=
  {| app := initialApp;
     pos := {| pos_lon := None; pos_lat := None |};
     marineData := None;
     marineLoading := false;
     isDemoMode := false;
     mapStyle := standard;
     mapRest := {| styleUrl := None; requestedStyle := None;
                   eezSource := None; boatSource := None;
                   camera := (centerDefault, 6%Z) |};
     debounce := {| marineDebounceRef := None; timers := [];
                    nextTimer := 1%positive; fetches := [] |};
     alerts := [] |}.

(** ** Handlers: stateful computations on the page *)

Definition P (A : Type) : Type := Page -> result A * Page.

Definition retP {A} (a : A) : P A := fun pg => (Normal a, pg).

Definition bindP {A B} (c : P A) (k : A -> P B) : P B :=
  fun pg =>
    match c pg with
    | (Normal a, pg') => k a pg'
    | (Throw e, pg') => (Throw e, pg')
    end.

Declare Scope page_scope.
Delimit Scope page_scope with page.
Notation "x <- c ;; k" := (bindP c (fun x => k))
  (at level 61, c at next level, right associativity) : page_scope.
Notation "c ;; k" := (bindP c (fun _ => k))
  (at level 61, right associativity) : page_scope.

Definition with_app (a : App) (pg : Page) : Page :=
  {| app := a; pos := pos pg; marineData := marineData pg;
     marineLoading := marineLoading pg; isDemoMode := isDemoMode pg;
     mapStyle := mapStyle pg; mapRest := mapRest pg; debounce := debounce pg;
     alerts := alerts pg |}.

Definition with_mapRest (r : MapRest) (pg : Page) : Page :=
  {| app := app pg; pos := pos pg; marineData := marineData pg;
     marineLoading := marineLoading pg; isDemoMode := isDemoMode pg;
     mapStyle := mapStyle pg; mapRest := r; debounce := debounce pg;
     alerts := alerts pg |}.

Definition with_debounce (d : Debounce) (pg : Page) : Page :=
  {| app := app pg; pos := pos pg; marineData := marineData pg;
     marineLoading := marineLoading pg; isDemoMode := isDemoMode pg;
     mapStyle := mapStyle pg; mapRest := mapRest pg; debounce := d;
     alerts := alerts pg |}.

(** A function of the first part, run on the page. *)
Definition liftApp {A} (c : M A) : P A := fun pg =>
  let (r, a) := c (app pg) in (r, with_app a pg).

Definition with_eezData (d : option FeatureCollection) (st : App) : App :=
  {| map_current := map_current st; eezData := d; safety := safety st;
     alertMsg := alertMsg st; distToCoast := distToCoast st;
     calls := calls st; draws := draws st |}.

Definition with_map (m : option MapBox) (st : App) : App :=
  {| map_current := m; eezData := eezData st; safety := safety st;
     alertMsg := alertMsg st; distToCoast := distToCoast st;
     calls := calls st; draws := draws st |}.

(** [seeing seen c]: the handler [c] as created in a render whose [eezData]
    was [seen]: it reads that value, and its writes reach the current
    state. *)
Definition seeing {A} (seen : option FeatureCollection) (c : P A) : P A := fun pg =>
  let (r, pg') := c (with_app (with_eezData seen (app pg)) pg) in
  (r, with_app (with_eezData (eezData (app pg)) (app pg')) pg').

Definition setPos (p : Pos) : P unit := fun pg =>
  (Normal tt,
   {| app := app pg; pos := p; marineData := marineData pg;
      marineLoading := marineLoading pg; isDemoMode := isDemoMode pg;
      mapStyle := mapStyle pg; mapRest := mapRest pg; debounce := debounce pg;
      alerts := alerts pg |}).

Definition setMarineData (m : option Marine) : P unit := fun pg =>
  (Normal tt,
   {| app := app pg; pos := pos pg; marineData := m;
      marineLoading := marineLoading pg; isDemoMode := isDemoMode pg;
      mapStyle := mapStyle pg; mapRest := mapRest pg; debounce := debounce pg;
      alerts := alerts pg |}).

Definition setMarineLoading (b : bool) : P unit := fun pg =>
  (Normal tt,
   {| app := app pg; pos := pos pg; marineData := marineData pg;
      marineLoading := b; isDemoMode := isDemoMode pg;
      mapStyle := mapStyle pg; mapRest := mapRest pg; debounce := debounce pg;
      alerts := alerts pg |}).

Definition setIsDemoMode (b : bool) : P unit := fun pg =>
  (Normal tt,
   {| app := app pg; pos := pos pg; marineData := marineData pg;
      marineLoading := marineLoading pg; isDemoMode := b;
      mapStyle := mapStyle pg; mapRest := mapRest pg; debounce := debounce pg;
      alerts := alerts pg |}).

Definition setMapStyle (k : StyleKey) : P unit := fun pg =>
  (Normal tt,
   {| app := app pg; pos := pos pg; marineData := marineData pg;
      marineLoading := marineLoading pg; isDemoMode := isDemoMode pg;
      mapStyle := k; mapRest := mapRest pg; debounce := debounce pg;
      alerts := alerts pg |}).

Definition setEezData (geojson : FeatureCollection) : P unit := fun pg =>
  (Normal tt, with_app (with_eezData (Some geojson) (app pg)) pg).

(** [alert(message)]. *)
Definition alert (message : string) : P unit := fun pg =>
  (Normal tt,
   {| app := app pg; pos := pos pg; marineData := marineData pg;
      marineLoading := marineLoading pg; isDemoMode := isDemoMode pg;
      mapStyle := mapStyle pg; mapRest := mapRest pg; debounce := debounce pg;
      alerts := alerts pg ++ [message] |}).

(** A call on [map.current], which throws when the ref is still [null]. *)
Definition onMap {A} (c : P A) : P A := fun pg =>
  match map_current (app pg) with
  | Some _ => c pg
  | None => (Throw "TypeError: map.current is null", pg)
  end.

(** [map.current.flyTo({ center, zoom })]. *)
Definition flyTo (center : Position) (zoom : Z) : P unit :=
  onMap (fun pg =>
    (Normal tt,
     with_mapRest
       {| styleUrl := styleUrl (mapRest pg); requestedStyle := requestedStyle (mapRest pg);
          eezSource := eezSource (mapRest pg); boatSource := boatSource (mapRest pg);
          camera := (center, zoom) |} pg)).

Definition setEezSource (d : option SourceData) : P unit := fun pg =>
  (Normal tt,
   with_mapRest
     {| styleUrl := styleUrl (mapRest pg); requestedStyle := requestedStyle (mapRest pg);
        eezSource := d; boatSource := boatSource (mapRest pg);
        camera := camera (mapRest pg) |} pg).

Definition setBoatSource (d : option Position) : P unit := fun pg =>
  (Normal tt,
   with_mapRest
     {| styleUrl := styleUrl (mapRest pg); requestedStyle := requestedStyle (mapRest pg);
        eezSource := eezSource (mapRest pg); boatSource := d;
        camera := camera (mapRest pg) |} pg).

(** [map.current.addLayer({ id, ... })]: the layer comes last; an
    identifier the map has already is refused (an error event, no throw).
    [color] is the layer's [circle-color], empty for a layer that is no
    circle. *)
Definition addLayer (id color : string) : P unit := fun pg =>
  match map_current (app pg) with
  | Some m =>
      match getLayer id (layers m) with
      | Some _ => (Normal tt, pg)
      | None =>
          (Normal tt,
           with_app (with_map (Some {| layers := layers m ++ [(id, color)] |}) (app pg)) pg)
      end
  | None => (Throw "TypeError: map.current is null", pg)
  end.

(** [turf.point([lon, lat])] for coordinates that may be [null]: the library
    refuses what is not a number. *)
Definition pointOf (lon lat : Coord) : result Position :=
  match lon, lat with
  | Some x, Some y => Normal (point x y)
  | _, _ => Throw "coordinates must contain numbers"
  end.

Definition liftR {A} (r : result A) : P A := fun pg => (r, pg).

(** [a || b] for a coordinate: [null] and zero are falsy. *)
Definition orElse (a : Coord) (b : Q) : Q :=
  match a with
  | Some q => if Qeq_bool q 0 then b else q
  | None => b
  end.

(** ** The functions of the component, on the page *)

(** [if (map.current) yes else no]. *)
Definition ifMap {A} (yes no : P A) : P A := fun pg =>
  match map_current (app pg) with
  | Some _ => yes pg
  | None => no pg
  end.

(** [if (map.current.getSource('boat')) yes else no]. *)
Definition ifBoatSource {A} (yes no : P A) : P A := fun pg =>
  match boatSource (mapRest pg) with
  | Some _ => yes pg
  | None => no pg
  end.

(** [if (map.current.getSource('eez')) yes else no]. *)
Definition ifEezSource {A} (yes no : P A) : P A := fun pg =>
  match eezSource (mapRest pg) with
  | Some _ => yes pg
  | None => no pg
  end.

(** A handler that reads [pos]. *)
Definition withPos {A} (k : Pos -> P A) : P A := fun pg => k (pos pg) pg.

(** [clearTimeout(id)]: the timer is gone if it had not fired. *)
Definition clearTimeout (id : positive) (ts : list (positive * (Coord * Coord)))
  : list (positive * (Coord * Coord)) :=
  filter (fun t => negb (Pos.eqb (fst t) id)) ts.

(** [if (marineDebounceRef.current) clearTimeout(marineDebounceRef.current)]. *)
Definition clearPending : P unit := fun pg =>
  let d := debounce pg in
  (Normal tt,
   with_debounce
     {| marineDebounceRef := marineDebounceRef d;
        timers := match marineDebounceRef d with
                  | Some id => clearTimeout id (timers d)
                  | None => timers d
                  end;
        nextTimer := nextTimer d; fetches := fetches d |} pg).

(** [marineDebounceRef.current = setTimeout(..., 600)], the callback being
    the fetch for [(lat, lon)]. *)
Definition startTimer (lat lon : Coord) : P unit := fun pg =>
  let d := debounce pg in
  (Normal tt,
   with_debounce
     {| marineDebounceRef := Some (nextTimer d);
        timers := timers d ++ [(nextTimer d, (lat, lon))];
        nextTimer := Pos.succ (nextTimer d); fetches := fetches d |} pg).

(** [map.current.setStyle(url)]: the style is asked for; the map shows it
    when it has loaded. *)
Definition setStyle (url : string) : P unit := fun pg =>
  (Normal tt,
   with_mapRest
     {| styleUrl := styleUrl (mapRest pg); requestedStyle := Some url;
        eezSource := eezSource (mapRest pg); boatSource := boatSource (mapRest pg);
        camera := camera (mapRest pg) |} pg).

Section PageFunctions.

Context {turf : Turf}.
Variable randoms : nat -> Q.

Local Open Scope page_scope.

(** [updateSafety(lon, lat)] for coordinates that may be [null]: nothing
    reads them before [turf.point], which comes after the two guards. *)
Definition updateSafetyAt (lon lat : Coord) : M unit :=
  match lon, lat with
  | Some x, Some y => updateSafety x y
  | _, _ => fun st =>
      match map_current st with
      | None => (Normal tt, st)
      | Some _ =>
          match primaryFeature (eezData st) with
          | None => setSafety {| label := "EEZ data not loaded"; cls := "warn" |} st
          | Some _ => (Throw "coordinates must contain numbers", st)
          end
      end
  end.

(** [updateDistanceToEEZ(lon, lat)] for coordinates that may be [null]:
    [turf.point] comes first once the map is there. *)
Definition updateDistanceToEEZAt (lon lat : Coord) : M unit :=
  match lon, lat with
  | Some x, Some y => updateDistanceToEEZ x y
  | _, _ => fun st =>
      match map_current st with
      | None => (Normal tt, st)
      | Some _ => (Throw "coordinates must contain numbers", st)
      end
  end.

(** [refreshMarineData(lat, lon)]: the pending timer is cleared, the loading
    flag raised and a timer set for the fetch of this position. *)
Definition refreshMarineData (lat lon : Coord) : P unit :=
  clearPending ;;
  setMarineLoading true ;;
  startTimer lat lon.

Definition updatePosition (lon lat : Coord) : P unit :=
  setPos {| pos_lon := lon; pos_lat := lat |} ;;
  ifMap
    (ifBoatSource (pt <- liftR (pointOf lon lat) ;; setBoatSource (Some pt)) (retP tt) ;;
     refreshMarineData lat lon ;;
     liftApp (updateSafetyAt lon lat) ;;
     liftApp (updateDistanceToEEZAt lon lat))
    (retP tt).

(** [addLayers()], in a render whose [pos] and [eezData] are [seenPos] and
    [seenEez]. *)
Definition addLayers (seenPos : Pos) (seenEez : option FeatureCollection) : P unit :=
  let eezSourceData :=
    match seenEez with
    | Some geojson => FromGeojson geojson
    | None => FromUrl "/data/eez_india.geojson"
    end in
  onMap (
    ifEezSource
      match seenEez with
      | Some geojson => setEezSource (Some (FromGeojson geojson))
      | None => retP tt
      end
      (setEezSource (Some eezSourceData) ;;
       addLayer "eez-fill" "" ;;
       addLayer "eez-line" "") ;;
    ifBoatSource
      (retP tt)
      (setBoatSource
         (Some (point (orElse (pos_lon seenPos) (fst centerDefault))
                      (orElse (pos_lat seenPos) (snd centerDefault)))) ;;
       addLayer "boat" "#FFD400")).

(** [pos] and [eezData] as the first render has them. *)
Definition firstPos : Pos := {| pos_lon := None; pos_lat := None |}.
Definition firstEez : option FeatureCollection := None.

(** The first effect: the map is created once, with the standard style asked
    for. *)
Definition mount : P unit := fun pg =>
  match map_current (app pg) with
  | Some _ => (Normal tt, pg)
  | None =>
      (Normal tt,
       with_mapRest
         {| styleUrl := None; requestedStyle := Some (MAP_STYLES standard);
            eezSource := None; boatSource := None; camera := (centerDefault, 6%Z) |}
         (with_app (with_map (Some {| layers := [] |}) (app pg)) pg))
  end.

(** What the map does when a style it was asked for has loaded: the style
    is shown, and the sources and layers added to the one before are gone. *)
Definition styleArrives : P unit := fun pg =>
  match requestedStyle (mapRest pg), map_current (app pg) with
  | Some url, Some _ =>
      (Normal tt,
       with_mapRest
         {| styleUrl := Some url; requestedStyle := None;
            eezSource := None; boatSource := None; camera := camera (mapRest pg) |}
         (with_app (with_map (Some {| layers := [] |}) (app pg)) pg))
  | _, _ => (Normal tt, pg)
  end.

(** The handler of [style.load], registered in the first effect. *)
Definition onStyleLoad : P unit :=
  seeing firstEez (
    addLayers firstPos firstEez ;;
    onMap (
      ifBoatSource
        (setBoatSource
           (Some (point (orElse (pos_lon firstPos) (fst centerDefault))
                        (orElse (pos_lat firstPos) (snd centerDefault)))))
        (retP tt))).

(** The callbacks of a [getCurrentPosition], created in a render whose
    [eezData] was [seen]. *)
Definition onLocated (seen : option FeatureCollection) (lon lat : Q) : P unit :=
  seeing seen (
    setIsDemoMode false ;;
    updatePosition (Some lon) (Some lat) ;;
    flyTo (lon, lat) 8).

Definition onFirstFixDenied : P unit :=
  seeing firstEez (
    setIsDemoMode true ;;
    updatePosition (Some (fst centerDefault)) (Some (snd centerDefault)) ;;
    flyTo centerDefault 6).

(** The handler of [load], registered in the first effect; with
    [navigator.geolocation] it asks for the position and ends there. *)
Definition onMapLoad (geolocation : bool) : P unit :=
  seeing firstEez (
    addLayers firstPos firstEez ;;
    if geolocation then retP tt
    else
      updatePosition (Some (fst centerDefault)) (Some (snd centerDefault)) ;;
      flyTo centerDefault 6).

(** The second effect, when the fetch of the boundary has answered. *)
Definition onEezFetched (geojson : FeatureCollection) : P unit :=
  setEezData geojson ;;
  ifMap (ifEezSource (setEezSource (Some (FromGeojson geojson))) (retP tt)) (retP tt).

(** The [onChange] of the latitude input, [parsed] being
    [parseFloat(e.target.value)]: a number, or [None] for [NaN]. *)
Definition onLatitudeChange (parsed : option Q) : P unit :=
  match parsed with
  | Some newLat => withPos (fun p => updatePosition (pos_lon p) (Some newLat))
  | None => retP tt
  end.

Definition onLongitudeChange (parsed : option Q) : P unit :=
  match parsed with
  | Some newLon => withPos (fun p => updatePosition (Some newLon) (pos_lat p))
  | None => retP tt
  end.

(** [onMapStyleChange(e)], [key] being [e.target.value]. *)
Definition onMapStyleChange (key : StyleKey) : P unit :=
  setMapStyle key ;;
  ifMap (setStyle (MAP_STYLES key)) (retP tt).

(** The button "Use My Location" without [navigator.geolocation], and the
    error callback of its [getCurrentPosition]. *)
Definition onUseMyLocationUnsupported : P unit :=
  alert "Geolocation is not supported by this browser.".

Definition onLocationFailed : P unit :=
  alert "Unable to get your location. Please check location permissions.".

(** The button "Reset View". *)
Definition onResetView : P unit :=
  updatePosition (Some (fst centerDefault)) (Some (snd centerDefault)) ;;
  flyTo centerDefault 5.

(** The button "Random Demo Location". *)
Definition onRandomDemo : P unit :=
  setIsDemoMode true ;;
  p <- liftApp (getRandomDemoLocation randoms) ;;
  updatePosition (Some (lon p)) (Some (lat p)) ;;
  ifMap (flyTo (lon p, lat p) 6) (retP tt).

(** A timer fires: its callback starts the fetch of its position. *)
Definition onTimer (id : positive) : P unit := fun pg =>
  let d := debounce pg in
  match find (fun t => Pos.eqb (fst t) id) (timers d) with
  | Some (_, args) =>
      (Normal tt,
       with_debounce
         {| marineDebounceRef := marineDebounceRef d;
            timers := clearTimeout id (timers d);
            nextTimer := nextTimer d;
            fetches := fetches d ++ [args] |} pg)
  | None => (Normal tt, pg)
  end.

Definition sameCoord (a b : Coord) : bool :=
  match a, b with
  | Some x, Some y => Qeq_bool x y
  | None, None => true
  | _, _ => false
  end.

Fixpoint remove_first (a : Coord * Coord) (l : list (Coord * Coord))
  : option (list (Coord * Coord)) :=
  match l with
  | [] => None
  | b :: rest =>
      if sameCoord (fst a) (fst b) && sameCoord (snd a) (snd b) then Some rest
      else option_map (cons b) (remove_first a rest)
  end.

(** The request for [args] leaves the requests in flight, if it is one. *)
Definition takeFetch (args : Coord * Coord) : P bool := fun pg =>
  let d := debounce pg in
  match remove_first args (fetches d) with
  | Some rest =>
      (Normal true,
       with_debounce
         {| marineDebounceRef := marineDebounceRef d; timers := timers d;
            nextTimer := nextTimer d; fetches := rest |} pg)
  | None => (Normal false, pg)
  end.

(** A fetch in flight ends: with an answer the data is stored, with an
    error it is set to [null]; the loading flag falls in both cases. *)
Definition onFetchSettled (args : Coord * Coord) (outcome : result (option Marine))
  : P unit :=
  inFlight <- takeFetch args ;;
  if inFlight : bool then
    match outcome with
    | Normal marine => setMarineData marine
    | Throw _ => setMarineData None
    end ;;
    setMarineLoading false
  else retP tt.

End PageFunctions.

(** ** The page as a state machine *)

Inductive Event : Type :=
| Mounted
| StyleLoaded
| MapLoaded (geolocation : bool)
| Located (seen : option FeatureCollection) (lon lat : Q)
| FirstFixDenied
| EezFetched (geojson : FeatureCollection)
| LatitudeTyped (parsed : option Q)
| LongitudeTyped (parsed : option Q)
| StyleSelected (key : StyleKey)
| UseMyLocationUnsupported
| LocationFailed
| ResetViewClicked
| RandomDemoClicked
| TimerFired (id : positive)
| FetchSettled (args : Coord * Coord) (outcome : result (option Marine)).

Section Machine.

Context {turf : Turf}.
Variable randoms : nat -> Q.

Local Open Scope page_scope.

Definition handler (e : Event) : P unit :=
  match e with
  | Mounted => mount
  | StyleLoaded => styleArrives ;; onStyleLoad
  | MapLoaded geolocation => onMapLoad geolocation
  | Located seen lon lat => onLocated seen lon lat
  | FirstFixDenied => onFirstFixDenied
  | EezFetched geojson => onEezFetched geojson
  | LatitudeTyped parsed => onLatitudeChange parsed
  | LongitudeTyped parsed => onLongitudeChange parsed
  | StyleSelected key => onMapStyleChange key
  | UseMyLocationUnsupported => onUseMyLocationUnsupported
  | LocationFailed => onLocationFailed
  | ResetViewClicked => onResetView
  | RandomDemoClicked => onRandomDemo randoms
  | TimerFired id => onTimer id
  | FetchSettled args outcome => onFetchSettled args outcome
  end.

(** The page after an event; what a handler throws is lost with it, what it
    wrote before stays. *)
Definition handle (e : Event) (pg : Page) : Page := snd (handler e pg).

(** What the component's life allows: the fetch of the boundary answers
    once, and a geolocation callback was created in a render that had the
    present [eezData] or the [null] before it. *)
Definition enabled (e : Event) (pg : Page) : Prop :=
  match e with
  | EezFetched _ => eezData (app pg) = None
  | Located seen _ _ => seen = None \/ seen = eezData (app pg)
  | _ => True
  end.

Inductive reachable : Page -> Prop :=
| reachable_initial : reachable initialPage
| reachable_step e pg : reachable pg -> enabled e pg -> reachable (handle e pg).

End Machine.

(** ** What is rendered *)

(** A string in a condition: the empty one is falsy. *)
Definition nonEmpty (s : string) : bool :=
  match s with EmptyString => false | String _ _ => true end.

(** [marineData?.hourly?.wave_height?.[0]]. *)
Definition firstWave (m : option Marine) : option number :=
  match m with
  | Some {| hourly := Some {| wave_height := Some (Some w :: _) |} |} => Some w
  | _ => None
  end.

(** [value={pos.lat || ''}]: the number, or nothing for [null] and for
    zero. *)
Definition fieldValue (c : Coord) : option Q :=
  match c with
  | Some q => if Qeq_bool q 0 then None else Some q
  | None => None
  end.

Record View : Type := mkView {
  statusClass : string;
  statusText : string;
  alertBanner : option string;
  emergencyButton : bool;
  latitudeField : option Q;
  longitudeField : option Q;
  wavesCard : string;
  locationStatusCard : string;
  distanceCard : string;
  distanceLine : string
}.

Definition render (pg : Page) : View :=
  let safety := safety (app pg) in
  let alertMsg := alertMsg (app pg) in
  let distToCoast := distToCoast (app pg) in
  {| statusClass := cls safety;
     statusText := label safety;
     alertBanner :=
       match alertMsg with
       | Some msg => if nonEmpty msg then Some msg else None
       | None => None
       end;
     emergencyButton := String.eqb (cls safety) "danger" && isDemoMode pg;
     latitudeField := fieldValue (pos_lat (pos pg));
     longitudeField := fieldValue (pos_lon (pos pg));
     wavesCard :=
       if marineLoading pg then "Loading..."
       else match firstWave (marineData pg) with
            | Some w => if nonEmpty (toFixed2 w) then toFixed2 w else "—"
            | None => "—"
            end;
     locationStatusCard :=
       if String.eqb (cls safety) "safe" then "Safe"
       else if String.eqb (cls safety) "danger" then "Outside EEZ"
       else "Loading...";
     distanceCard :=
       match distToCoast with
       | Some d => if nonEmpty d then (d ++ " km")%string else "—"
       | None => "—"
       end;
     distanceLine :=
       match distToCoast with
       | Some d => if nonEmpty d then (d ++ " km")%string else "Calculating..."
       | None => "Calculating..."
       end |}.

(** ** [sendEmergencyAlert] *)

(** The decimal digits of [n], with zeros in front up to [width]. *)
Definition padded (width : nat) (n : Z) : string :=
  let s := digits n in
  (string_of_list_ascii (repeat "0"%char (width - String.length s)) ++ s)%string.

(** [x.toFixed(f)] for [f] of one or more (below 10^21, as [toFixed2]). *)
Definition toFixed (f : nat) (x : number) : string :=
  match x with
  | NaN => "NaN"
  | Infinity => "Infinity"
  | NegInfinity => "-Infinity"
  | Num q =>
      let sign := if Qltb q 0 then "-" else "" in
      let scale := (10 ^ Z.of_nat f)%Z in
      let n := Qfloor (Qabs q * inject_Z scale + (1 # 2)) in
      (sign ++ digits (n / scale) ++ "." ++ padded f (n mod scale))%string
  end.

(** [`${c?.toFixed(4)}`]: the digits, or the text of [undefined]. *)
Definition shown4 (c : Coord) : string :=
  match c with
  | Some q => toFixed 4 (Num q)
  | None => "undefined"
  end.

(** The characters [encodeURIComponent] leaves as they are. *)
Definition unreserved (c : ascii) : bool :=
  let n := nat_of_ascii c in
  ((48 <=? n) && (n <=? 57) || (65 <=? n) && (n <=? 90) || (97 <=? n) && (n <=? 122)
   || existsb (Ascii.eqb c) ["-"; "_"; "."; "!"; "~"; "*"; "'"; "("; ")"]%char)%nat.

Definition hexDigit (n : nat) : ascii :=
  nth n ["0"; "1"; "2"; "3"; "4"; "5"; "6"; "7"; "8"; "9";
         "A"; "B"; "C"; "D"; "E"; "F"]%char "0"%char.

(** [encodeURIComponent(s)], on the bytes of [s] (the strings of this
    function are ASCII): every other character becomes [%XX]. *)
Fixpoint encodeURIComponent (s : string) : string :=
  match s with
  | EmptyString => EmptyString
  | String c rest =>
      if unreserved c then String c (encodeURIComponent rest)
      else String "%"
             (String (hexDigit (nat_of_ascii c / 16))
                (String (hexDigit (nat_of_ascii c mod 16)) (encodeURIComponent rest)))
  end.

Definition newline : string := String (ascii_of_nat 10) EmptyString.

(** What [sendEmergencyAlert] does to the world: a share sheet opened with
    these data, the window sent to an address. *)
Inductive Sent : Type :=
| Shared (title text url : string)
| Navigated (href : string).

Definition mapsLink (p : Pos) : string :=
  ("https://maps.google.com/?q=" ++ shown4 (pos_lat p) ++ "," ++ shown4 (pos_lon p))%string.

Definition mailto (p : Pos) : string :=
  let subject := encodeURIComponent "EEZ ALERT: Vessel outside Indian EEZ" in
  let body :=
    encodeURIComponent
      ("Emergency: Vessel is outside the Indian EEZ." ++ newline
       ++ "Coordinates: " ++ shown4 (pos_lat p) ++ ", " ++ shown4 (pos_lon p) ++ newline
       ++ "Map: " ++ mapsLink p)%string in
  ("mailto:?subject=" ++ subject ++ "&body=" ++ body)%string.

(** [sendEmergencyAlert()], [share] telling whether [navigator.share] is
    there and, when it is, whether its promise is fulfilled. *)
Definition sendEmergencyAlert (p : Pos) (share : option bool) : list Sent :=
  let message :=
    ("EEZ ALERT: Outside Indian EEZ" ++ newline
     ++ "Coords: " ++ shown4 (pos_lat p) ++ ", " ++ shown4 (pos_lon p) ++ newline
     ++ mapsLink p)%string in
  match share with
  | Some fulfilled =>
      Shared "EEZ ALERT" message (mapsLink p)
      :: (if fulfilled then [] else [Navigated (mailto p)])
  | None => [Navigated (mailto p)]
  end.

(** ** The boundary that is not loaded *)




(** ** More of [nearestDistanceToLines] *)

Section NearestDistanceMore.

Context {turf : Turf}.

(** Whatever the library answers, the loop never ends on [NaN] when it did
    not start on it: a [NaN] distance fails the test [d < min]. *)
Lemma nearestDistanceToLines_from_bound point lineFeatures : forall min m,
  isNaN min = false ->
  nearestDistanceToLines_from min point lineFeatures = Normal m ->
  isNaN m = false /\ le m min /\
  (forall f d, In f lineFeatures -> pointToLineDistance point f = Normal d ->
               isNaN d = false -> le m d) /\
  (m = min \/ exists f, In f lineFeatures /\ pointToLineDistance point f = Normal m).
Proof.
  induction lineFeatures as [|f fs IH]; intros min m Hmin; cbn.
  - intros H. injection H as <-. repeat split; auto.
    + now apply le_refl.
    + intros f d [].
  - destruct (pointToLineDistance point f) as [d|e] eqn:Hd; [|discriminate].
    destruct (lt d min) eqn:E; intros H.
    + assert (Nd : isNaN d = false) by (destruct d; cbn in E |- *; congruence).
      destruct (IH d m Nd H) as [Nm [Hle [Hall Hor]]].
      split; [exact Nm|]. split; [|split].
      * apply le_trans with d; [exact Hle|now apply lt_le].
      * intros f0 d0 [<-|Hin] Hd0 Nd0; [|now apply (Hall f0)].
        rewrite Hd in Hd0. injection Hd0 as <-. exact Hle.
      * right. destruct Hor as [->|[f0 [Hin Hf0]]].
        -- exists f. split; [now left|exact Hd].
        -- exists f0. split; [now right|exact Hf0].
    + destruct (IH min m Hmin H) as [Nm [Hle [Hall Hor]]].
      split; [exact Nm|]. split; [exact Hle|]. split.
      * intros f0 d0 [<-|Hin] Hd0 Nd0; [|now apply (Hall f0)].
        rewrite Hd in Hd0. injection Hd0 as <-.
        apply le_trans with min; [exact Hle|now apply not_lt_le].
      * destruct Hor as [->|[f0 [Hin Hf0]]]; [now left|].
        right. exists f0. split; [now right|exact Hf0].
Qed.

(** The loop throws exactly the first error of the library. *)
Lemma nearestDistanceToLines_from_throw point lineFeatures : forall min e,
  nearestDistanceToLines_from min point lineFeatures = Throw e <->
  exists before f after,
    lineFeatures = before ++ f :: after /\
    pointToLineDistance point f = Throw e /\
    Forall (fun g => throws (pointToLineDistance point g) = false) before.
Proof.
  induction lineFeatures as [|f fs IH]; intros min e; cbn.
  - split; [discriminate|]. intros [before [f [after [H _]]]].
    destruct before; discriminate.
  - destruct (pointToLineDistance point f) as [d|e'] eqn:Hd.
    + rewrite IH. split.
      * intros [before [g [after [-> [Hg Hb]]]]].
        exists (f :: before), g, after. repeat split; auto.
        constructor; [now rewrite Hd|exact Hb].
      * intros [before [g [after [Heq [Hg Hb]]]]].
        destruct before as [|b before]; cbn in Heq; injection Heq as -> ->.
        -- congruence.
        -- inversion Hb; subst. exists before, g, after. repeat split; auto.
    + split.
      * intros H. injection H as ->. exists [], f, fs. repeat split; auto.
      * intros [before [g [after [Heq [Hg Hb]]]]].
        destruct before as [|b before]; cbn in Heq; injection Heq as -> ->.
        -- congruence.
        -- inversion Hb as [|? ? Hb0 _]; subst. rewrite Hd in Hb0. discriminate.
Qed.

End NearestDistanceMore.

(** X5.  Whatever distances the library answers, [NaN] included,
    [nearestDistanceToLines] never returns [NaN]: its result is [Infinity]
    or one of the library's answers, and it is below every answer that is
    not [NaN]. *)
Theorem nearestDistanceToLines_never_NaN (turf : Turf) (point : Position)
    (lineFeatures : list Feature) (m : number) :
  nearestDistanceToLines point lineFeatures = Normal m ->
  isNaN m = false /\
  (forall f d, In f lineFeatures -> pointToLineDistance point f = Normal d ->
               isNaN d = false -> le m d) /\
  (m = Infinity \/ exists f, In f lineFeatures /\ pointToLineDistance point f = Normal m).
Proof.
  intros H.
  destruct (nearestDistanceToLines_from_bound point lineFeatures Infinity m eq_refl H)
    as [Nm [_ [Hall Hor]]].
  repeat split; assumption.
Qed.

(** A library that answers [NaN] for a line string of one position. *)
Definition nanTurf : Turf :=
  Build_Turf PlanarTurf.booleanPointInPolygon PlanarTurf.polygonToLine
    PlanarTurf.nearestPointOnLine PlanarTurf.distance
    (fun pt line =>
       match geometry line with
       | LineString [_] => Normal NaN
       | _ => PlanarTurf.pointToLineDistance pt line
       end).

Lemma nearestDistanceToLines_never_NaN_witness :
  exists m,
    @nearestDistanceToLines nanTurf (point 5 5)
      ({| bbox := None; geometry := LineString [(1, 1)]%Q |} :: twoLines) = Normal m /\
    isNaN m = false.
Proof.
  eexists. split; [vm_compute; reflexivity|].
  eapply (nearestDistanceToLines_never_NaN nanTurf (point 5 5)
            ({| bbox := None; geometry := LineString [(1, 1)]%Q |} :: twoLines)).
  vm_compute. reflexivity.
Defined.

(** X6.  [nearestDistanceToLines] throws exactly when the library throws for
    one of the lines, and then what it throws is the library's first error:
    every line before answered, no line after is asked. *)
Theorem nearestDistanceToLines_first_error (turf : Turf) (point : Position)
    (lineFeatures : list Feature) (e : string) :
  nearestDistanceToLines point lineFeatures = Throw e <->
  exists before f after,
    lineFeatures = before ++ f :: after /\
    pointToLineDistance point f = Throw e /\
    Forall (fun g => throws (pointToLineDistance point g) = false) before.
Proof.
  unfold nearestDistanceToLines.
  exact (nearestDistanceToLines_from_throw point lineFeatures Infinity e).
Qed.

(** ** More of [getRandomDemoLocation] *)

(** X7.  With draws in [0, 1), every location [getRandomDemoLocation]
    returns, the fallback included, lies in the bounding box of a region of
    the catalog, with or without a boundary set and whatever the library
    answers. *)
Theorem demo_location_in_catalog (turf : Turf) (randoms : nat -> Q) (st : App)
    (p : LonLat) :
  (forall n, (0 <= randoms n < 1)%Q) ->
  fst (getRandomDemoLocation randoms st) = Normal p ->
  exists region, In region oceanRegions /\ inBox p (region_bbox region).
Proof.
  intros Hr. rewrite getRandomDemoLocation_steps.
  destruct (drawnRegion_suitable randoms Hr st) as [region [-> [Hin _]]].
  cbn [fst].
  assert (Hbox := drawnPoint_inBox randoms Hr region st Hin).
  assert (Hfall : exists r, In r oceanRegions /\ inBox fallbackLocation (region_bbox r)).
  { exists {| region_bbox := (68, 10, 75, 22)%Q; insideEEZ := true |}.
    split; [now left|]. cbn. repeat split; discriminate. }
  destruct (primaryFeature (eezData st)) as [poly|].
  - destruct (insidePolygon _ poly) as [inside|e]; [|discriminate].
    destruct (Bool.eqb (drawnRelation randoms st) inside);
      intros H; injection H as <-; [exists region; split; assumption|exact Hfall].
  - intros H. injection H as <-. exists region. split; assumption.
Qed.

Lemma demo_location_in_catalog_witness :
  exists region,
    In region oceanRegions /\ inBox fallbackLocation (region_bbox region).
Proof.
  exact (demo_location_in_catalog PlanarTurf.turf (fun _ => 1 # 4) (mounted squareFeature)
           fallbackLocation quarter_in_unit eq_refl).
Defined.

(** ** [sendEmergencyAlert] *)

(** A string that can stand in a query: unreserved characters and [%]. *)
Definition querySafe (s : string) : Prop :=
  Forall (fun c => unreserved c = true \/ c = "%"%char) (list_ascii_of_string s).

Lemma hexDigit_high_unreserved c : unreserved (hexDigit (nat_of_ascii c / 16)) = true.
Proof. destruct c as [[] [] [] [] [] [] [] []]; reflexivity. Qed.

Lemma hexDigit_low_unreserved c : unreserved (hexDigit (nat_of_ascii c mod 16)) = true.
Proof. destruct c as [[] [] [] [] [] [] [] []]; reflexivity. Qed.

Lemma encodeURIComponent_querySafe s : querySafe (encodeURIComponent s).
Proof.
  unfold querySafe. induction s as [|c s IH]; cbn; [constructor|].
  destruct (unreserved c) eqn:E; cbn.
  - constructor; [now left|exact IH].
  - constructor; [now right|].
    constructor; [left; apply hexDigit_high_unreserved|].
    constructor; [left; apply hexDigit_low_unreserved|exact IH].
Qed.

(** X8.  [sendEmergencyAlert] opens the mail client exactly when there is no
    [navigator.share] or its promise is rejected, and opens the share sheet
    exactly when there is one.  Whatever the position, the address it goes
    to is [mailto:?subject=S&body=B] with [S] and [B] made of unreserved
    characters and [%] only: no space, line break, [&], [=], [?] or [#] of
    the text can cut the query. *)
Theorem sendEmergencyAlert_mailto (p : Pos) (share : option bool) :
  (In (Navigated (mailto p)) (sendEmergencyAlert p share) <-> share <> Some true) /\
  ((exists title text url, In (Shared title text url) (sendEmergencyAlert p share))
   <-> share <> None) /\
  (forall href, In (Navigated href) (sendEmergencyAlert p share) -> href = mailto p) /\
  exists S B,
    mailto p = ("mailto:?subject=" ++ S ++ "&body=" ++ B)%string /\
    querySafe S /\ querySafe B.
Proof.
  unfold sendEmergencyAlert. split; [|split; [|split]].
  - destruct share as [[|]|]; cbn [In].
    + split; [intros [H|[]]; discriminate H | intros H; exfalso; apply H; reflexivity].
    + split; [intros _; discriminate | intros _; right; left; reflexivity].
    + split; [intros _; discriminate | intros _; left; reflexivity].
  - destruct share as [[|]|]; cbn [In].
    + split; [intros _; discriminate | intros _; do 3 eexists; left; reflexivity].
    + split; [intros _; discriminate | intros _; do 3 eexists; left; reflexivity].
    + split; [intros [t [x [u [H|[]]]]]; discriminate H
             | intros H; exfalso; apply H; reflexivity].
  - intros href. destruct share as [[|]|]; cbn [In].
    + intros [H|[]]. discriminate H.
    + intros [H|[H|[]]]; [discriminate H|now injection H].
    + intros [H|[]]. now injection H.
  - unfold mailto. cbv zeta. do 2 eexists. split; [reflexivity|].
    split; apply encodeURIComponent_querySafe.
Qed.

(** ** [updatePosition] *)

(** The debounce after [refreshMarineData(lat, lon)]. *)
Definition refreshed (lat lon : Coord) (d : Debounce) : Debounce :=
  {| marineDebounceRef := Some (nextTimer d);
     timers :=
       match marineDebounceRef d with
       | Some id => clearTimeout id (timers d)
       | None => timers d
       end ++ [(nextTimer d, (lat, lon))];
     nextTimer := Pos.succ (nextTimer d);
     fetches := fetches d |}.

(** The page after the first half of [updatePosition(lon, lat)], the map
    being there: the position stored, the boat moved if it has its source,
    the marine fetch set up again. *)
Definition moved (lon lat : Q) (pg : Page) : Page :=
  {| app := app pg;
     pos := {| pos_lon := Some lon; pos_lat := Some lat |};
     marineData := marineData pg;
     marineLoading := true;
     isDemoMode := isDemoMode pg;
     mapStyle := mapStyle pg;
     mapRest :=
       match boatSource (mapRest pg) with
       | Some _ =>
           {| styleUrl := styleUrl (mapRest pg);
              requestedStyle := requestedStyle (mapRest pg);
              eezSource := eezSource (mapRest pg);
              boatSource := Some (point lon lat);
              camera := camera (mapRest pg) |}
       | None => mapRest pg
       end;
     debounce := refreshed (Some lat) (Some lon) (debounce pg);
     alerts := alerts pg |}.

Section UpdatePosition.

Context {turf : Turf}.

Lemma updatePosition_numeric lon lat pg m :
  map_current (app pg) = Some m ->
  updatePosition (Some lon) (Some lat) pg =
  match updateSafety lon lat (app pg) with
  | (Throw e, a1) => (Throw e, with_app a1 (moved lon lat pg))
  | (Normal _, a1) =>
      (fst (updateDistanceToEEZ lon lat a1),
       with_app (snd (updateDistanceToEEZ lon lat a1)) (moved lon lat pg))
  end.
Proof.
  intros Hm.
  unfold updatePosition, bindP, setPos, ifMap, ifBoatSource.
  cbn [app mapRest]. rewrite Hm.
  unfold moved, refreshMarineData, clearPending, startTimer, bindP, setMarineLoading,
    liftApp, with_debounce, with_app, refreshed, updateSafetyAt, updateDistanceToEEZAt,
    retP, liftR, pointOf, setBoatSource, with_mapRest.
  cbn [app pos marineData marineLoading isDemoMode mapStyle mapRest debounce alerts
       styleUrl requestedStyle eezSource boatSource camera
       marineDebounceRef timers nextTimer fetches fst snd].
  destruct (boatSource (mapRest pg)) as [b|];
    cbn [app pos marineData marineLoading isDemoMode mapStyle mapRest debounce alerts
         styleUrl requestedStyle eezSource boatSource camera
         marineDebounceRef timers nextTimer fetches fst snd];
    destruct (updateSafety lon lat (app pg)) as [[[]|e] a1];
    cbn [app pos marineData marineLoading isDemoMode mapStyle mapRest debounce alerts
         styleUrl requestedStyle eezSource boatSource camera
         marineDebounceRef timers nextTimer fetches fst snd];
    try reflexivity;
    destruct (updateDistanceToEEZ lon lat a1) as [r a2]; reflexivity.
Qed.

Lemma updatePosition_no_map lon lat pg :
  map_current (app pg) = None ->
  updatePosition lon lat pg =
  (Normal tt,
   {| app := app pg; pos := {| pos_lon := lon; pos_lat := lat |};
      marineData := marineData pg; marineLoading := marineLoading pg;
      isDemoMode := isDemoMode pg; mapStyle := mapStyle pg; mapRest := mapRest pg;
      debounce := debounce pg; alerts := alerts pg |}).
Proof.
  intros Hm. unfold updatePosition, bindP, setPos, ifMap. cbn [app]. now rewrite Hm.
Qed.

End UpdatePosition.

(** The safety a containment answer gives. *)
Definition classification (inside : bool) : Safety :=
  if inside
  then {| label := "Inside Indian EEZ (Safe)"; cls := "safe" |}
  else {| label := "Outside Indian EEZ! Alert Coast Guard"; cls := "danger" |}.

(** X9.  When [updatePosition] throws (the map and the boundary being
    there, the coordinates numbers), the new position is stored already and
    a marine fetch is pending for it, but the distance is the old one: the
    error is the containment test's, and then the safety and the alert are
    the old ones too, or it is the distance's, and then the safety is the
    new position's. *)
Theorem updatePosition_throw_leaves_stale (turf : Turf) (pg : Page) (m : MapBox)
    (f : Feature) (others : list Feature) (lon lat : Q) (e : string) :
  map_current (app pg) = Some m ->
  eezData (app pg) = boundarySet f others ->
  fst (updatePosition (Some lon) (Some lat) pg) = Throw e ->
  pos (snd (updatePosition (Some lon) (Some lat) pg))
    = {| pos_lon := Some lon; pos_lat := Some lat |} /\
  In (nextTimer (debounce pg), (Some lat, Some lon))
     (timers (debounce (snd (updatePosition (Some lon) (Some lat) pg)))) /\
  distToCoast (app (snd (updatePosition (Some lon) (Some lat) pg)))
    = distToCoast (app pg) /\
  ((insidePolygon (point lon lat) f = Throw e /\
    safety (app (snd (updatePosition (Some lon) (Some lat) pg))) = safety (app pg) /\
    alertMsg (app (snd (updatePosition (Some lon) (Some lat) pg))) = alertMsg (app pg))
   \/
   (exists inside,
       insidePolygon (point lon lat) f = Normal inside /\
       distKm (point lon lat) f = Throw e /\
       safety (app (snd (updatePosition (Some lon) (Some lat) pg)))
         = classification inside)).
Proof.
  intros Hm He. rewrite (updatePosition_numeric lon lat pg m Hm).
  rewrite (updateSafety_loaded (app pg) m f others lon lat Hm He).
  destruct (insidePolygon (point lon lat) f) as [inside|e'] eqn:Hin.
  - match goal with
    | |- context [updateDistanceToEEZ lon lat ?a] => set (a1 := a)
    end.
    assert (Hm1 : exists m1, map_current a1 = Some m1) by (eexists; reflexivity).
    destruct Hm1 as [m1 Hm1].
    rewrite (updateDistanceToEEZ_loaded a1 m1 f others lon lat Hm1 He).
    destruct (distKm (point lon lat) f) as [d|e''] eqn:Hd; cbn [fst snd]; [discriminate|].
    intros H. injection H as ->.
    split; [reflexivity|]. split; [cbn; apply in_or_app; right; now left|].
    split; [reflexivity|]. right. exists inside. split; [reflexivity|].
    split; [reflexivity|]. destruct inside; reflexivity.
  - cbn [fst snd]. intros H. injection H as ->.
    split; [reflexivity|]. split; [cbn; apply in_or_app; right; now left|].
    split; [reflexivity|]. left. repeat split.
Qed.

(** A page whose map has loaded, around the component state [a]. *)
Definition loadedPage (a : App) : Page :=
  {| app := a;
     pos := firstPos;
     marineData := None;
     marineLoading := false;
     isDemoMode := false;
     mapStyle := standard;
     mapRest := {| styleUrl := Some (MAP_STYLES standard); requestedStyle := None;
                   eezSource := Some (FromUrl "/data/eez_india.geojson");
                   boatSource := Some centerDefault;
                   camera := (centerDefault, 6%Z) |};
     debounce := {| marineDebounceRef := None; timers := [];
                    nextTimer := 1%positive; fetches := [] |};
     alerts := [] |}.

Lemma updatePosition_throw_leaves_stale_witness :
  pos (snd (@updatePosition PlanarTurf.turf (Some 5) (Some 5)
              (loadedPage (mounted emptyRingFeature))))
    = {| pos_lon := Some 5; pos_lat := Some 5 |} /\
  safety (app (snd (@updatePosition PlanarTurf.turf (Some 5) (Some 5)
                      (loadedPage (mounted emptyRingFeature)))))
    = {| label := "Loading location..."; cls := "warn" |}.
Proof.
  edestruct (updatePosition_throw_leaves_stale PlanarTurf.turf
               (loadedPage (mounted emptyRingFeature))
               {| layers := [("eez-fill", ""); ("eez-line", ""); ("boat", "#FFD400")] |}
               emptyRingFeature [] 5 5)
    as [Hp [_ [_ [[_ [Hs _]]|[inside [Hin _]]]]]];
    [ reflexivity | reflexivity | vm_compute; reflexivity | | ].
  - split; [exact Hp | exact Hs].
  - exfalso. revert Hin. vm_compute. discriminate.
Defined.

(** X10.  When [updatePosition] returns (the map and the boundary being
    there, the coordinates numbers), the safety, the alert and the distance
    all describe the position it stored: the safety is the classification
    of that position, the alert is raised exactly when it is Outside, and
    the distance is the formatted distance of that position. *)
Theorem updatePosition_consistent (turf : Turf) (pg : Page) (m : MapBox)
    (f : Feature) (others : list Feature) (lon lat : Q) :
  map_current (app pg) = Some m ->
  eezData (app pg) = boundarySet f others ->
  fst (updatePosition (Some lon) (Some lat) pg) = Normal tt ->
  exists inside d,
    insidePolygon (point lon lat) f = Normal inside /\
    distKm (point lon lat) f = Normal d /\
    pos (snd (updatePosition (Some lon) (Some lat) pg))
      = {| pos_lon := Some lon; pos_lat := Some lat |} /\
    safety (app (snd (updatePosition (Some lon) (Some lat) pg)))
      = classification inside /\
    alertMsg (app (snd (updatePosition (Some lon) (Some lat) pg)))
      = (if inside then None else Some "Outside Indian EEZ! Alert Coast Guard") /\
    distToCoast (app (snd (updatePosition (Some lon) (Some lat) pg)))
      = Some (toFixed2 d).
Proof.
  intros Hm He. rewrite (updatePosition_numeric lon lat pg m Hm).
  rewrite (updateSafety_loaded (app pg) m f others lon lat Hm He).
  destruct (insidePolygon (point lon lat) f) as [inside|e'] eqn:Hin;
    [|cbn; discriminate].
  match goal with
  | |- context [updateDistanceToEEZ lon lat ?a] => set (a1 := a)
  end.
  assert (Hm1 : exists m1, map_current a1 = Some m1) by (eexists; reflexivity).
  destruct Hm1 as [m1 Hm1].
  rewrite (updateDistanceToEEZ_loaded a1 m1 f others lon lat Hm1 He).
  destruct (distKm (point lon lat) f) as [d|e''] eqn:Hd; cbn [fst snd]; [|discriminate].
  intros _. exists inside, d. repeat split. destruct inside; reflexivity.
Qed.

Lemma updatePosition_consistent_witness :
  safety (app (snd (@updatePosition PlanarTurf.turf (Some 15) (Some 5)
                      (loadedPage (mounted squareFeature)))))
    = {| label := "Outside Indian EEZ! Alert Coast Guard"; cls := "danger" |} /\
  distToCoast (app (snd (@updatePosition PlanarTurf.turf (Some 15) (Some 5)
                           (loadedPage (mounted squareFeature)))))
    = Some "555.98".
Proof.
  edestruct (updatePosition_consistent PlanarTurf.turf (loadedPage (mounted squareFeature))
               {| layers := [("eez-fill", ""); ("eez-line", ""); ("boat", "#FFD400")] |}
               squareFeature [] 15 5)
    as [inside [d [Hin [Hd [_ [Hs [_ Hdist]]]]]]];
    [ reflexivity | reflexivity | vm_compute; reflexivity | ].
  split.
  - rewrite Hs. revert Hin. vm_compute. intros H. injection H as <-. reflexivity.
  - rewrite Hdist. revert Hd. vm_compute. intros H. injection H as <-. reflexivity.
Defined.

(** ** The callbacks of the first render *)

(** The safety of a call that finds no boundary set. *)
Definition notLoaded : Safety := {| label := "EEZ data not loaded"; cls := "warn" |}.

(** The events whose handlers were created in the first render and call
    [updatePosition]: the two callbacks of the position asked for when the
    map has loaded, and the [load] handler itself without geolocation. *)
Definition firstRenderFix (e : Event) : Prop :=
  match e with
  | Located None _ _ | FirstFixDenied | MapLoaded false => True
  | _ => False
  end.

Section FirstRender.

Context {turf : Turf}.

Lemma updateSafety_unloaded st m lon lat :
  map_current st = Some m -> primaryFeature (eezData st) = None ->
  updateSafety lon lat st = setSafety notLoaded st.
Proof. intros Hm H. unfold updateSafety. now rewrite Hm, H. Qed.

Lemma updateDistanceToEEZ_unloaded st m lon lat :
  map_current st = Some m -> primaryFeature (eezData st) = None ->
  updateDistanceToEEZ lon lat st = setDistToCoast None st.
Proof. intros Hm H. unfold updateDistanceToEEZ. now rewrite Hm, H. Qed.

(** [updatePosition] where no boundary set is seen. *)
Lemma updatePosition_unloaded pg m lon lat :
  map_current (app pg) = Some m ->
  primaryFeature (eezData (app pg)) = None ->
  updatePosition (Some lon) (Some lat) pg =
  (Normal tt,
   with_app (snd (setDistToCoast None (snd (setSafety notLoaded (app pg)))))
     (moved lon lat pg)).
Proof.
  intros Hm H. rewrite (updatePosition_numeric lon lat pg m Hm).
  rewrite (updateSafety_unloaded (app pg) m lon lat Hm H).
  cbn [setSafety fst snd].
  match goal with |- context [updateDistanceToEEZ lon lat ?a] => set (a1 := a) end.
  now rewrite (updateDistanceToEEZ_unloaded a1 m lon lat Hm H).
Qed.

End FirstRender.

(** ** Invariants of handlers *)

Section Keeps.

Variable I : Page -> Prop.

(** [c] keeps [I], whether it returns or throws. *)
Definition keeps {A} (c : P A) : Prop := forall pg, I pg -> I (snd (c pg)).

Lemma keeps_retP {A} (a : A) : keeps (retP a).
Proof. intros pg H. exact H. Qed.

Lemma keeps_liftR {A} (r : result A) : keeps (liftR r).
Proof. intros pg H. exact H. Qed.

Lemma keeps_bindP {A B} (c : P A) (k : A -> P B) :
  keeps c -> (forall a, keeps (k a)) -> keeps (bindP c k).
Proof.
  intros Hc Hk pg H. unfold bindP. specialize (Hc pg H).
  destruct (c pg) as [[a|e] pg']; cbn [snd] in *; [apply Hk|]; exact Hc.
Qed.

Lemma keeps_ifMap {A} (yes no : P A) : keeps yes -> keeps no -> keeps (ifMap yes no).
Proof.
  intros Hy Hn pg H. unfold ifMap.
  destruct (map_current (app pg)); [apply Hy|apply Hn]; exact H.
Qed.

Lemma keeps_ifBoatSource {A} (yes no : P A) :
  keeps yes -> keeps no -> keeps (ifBoatSource yes no).
Proof.
  intros Hy Hn pg H. unfold ifBoatSource.
  destruct (boatSource (mapRest pg)); [apply Hy|apply Hn]; exact H.
Qed.

Lemma keeps_ifEezSource {A} (yes no : P A) :
  keeps yes -> keeps no -> keeps (ifEezSource yes no).
Proof.
  intros Hy Hn pg H. unfold ifEezSource.
  destruct (eezSource (mapRest pg)); [apply Hy|apply Hn]; exact H.
Qed.

Lemma keeps_withPos {A} (k : Pos -> P A) : (forall p, keeps (k p)) -> keeps (withPos k).
Proof. intros Hk pg H. unfold withPos. apply Hk, H. Qed.

Lemma keeps_onMap {A} (c : P A) : keeps c -> keeps (onMap c).
Proof.
  intros Hc pg H. unfold onMap. destruct (map_current (app pg)); [apply Hc|]; exact H.
Qed.

(** An invariant that does not read [eezData] holds of a handler whatever
    render the handler was created in. *)
Definition eezBlind : Prop :=
  forall pg d, I pg <-> I (with_app (with_eezData d (app pg)) pg).

Lemma keeps_seeing {A} seen (c : P A) : eezBlind -> keeps c -> keeps (seeing seen c).
Proof.
  intros Hb Hc pg H. unfold seeing.
  apply (Hb pg seen) in H. specialize (Hc _ H).
  destruct (c (with_app (with_eezData seen (app pg)) pg)) as [r pg']. cbn [snd] in *.
  apply Hb. exact Hc.
Qed.

(** What the first step establishes and the rest keeps holds at the end. *)
Lemma after_bindP {A B} (c : P A) (k : A -> P B) :
  (forall pg, I (snd (c pg))) -> (forall a, keeps (k a)) ->
  forall pg, I (snd (bindP c k pg)).
Proof.
  intros Hc Hk pg. unfold bindP. specialize (Hc pg).
  destruct (c pg) as [[a|e] pg']; cbn [snd] in *; [apply Hk|]; exact Hc.
Qed.

Lemma after_seeing {A} seen (c : P A) :
  eezBlind -> (forall pg, I (snd (c pg))) -> forall pg, I (snd (seeing seen c pg)).
Proof.
  intros Hb Hc pg. unfold seeing.
  specialize (Hc (with_app (with_eezData seen (app pg)) pg)).
  destruct (c (with_app (with_eezData seen (app pg)) pg)) as [r pg']. cbn [snd] in *.
  apply Hb. exact Hc.
Qed.

End Keeps.

(** One step of a proof that a handler keeps an invariant: through the
    structure of the handler. *)
Ltac keeps_step :=
  lazymatch goal with
  | |- keeps _ (retP _) => apply keeps_retP
  | |- keeps _ (liftR _) => apply keeps_liftR
  | |- keeps _ (bindP _ _) => apply keeps_bindP; [|intro]
  | |- keeps _ (ifMap _ _) => apply keeps_ifMap
  | |- keeps _ (ifBoatSource _ _) => apply keeps_ifBoatSource
  | |- keeps _ (ifEezSource _ _) => apply keeps_ifEezSource
  | |- keeps _ (withPos _) => apply keeps_withPos; intro
  | |- keeps _ (onMap _) => apply keeps_onMap
  | |- keeps _ (flyTo _ _) => apply keeps_onMap
  | |- keeps _ (if ?b then _ else _) => destruct b
  | |- keeps _ (match ?x with _ => _ end) => destruct x
  end.

(** A step that writes a field of the page the invariant does not read. *)
Ltac keeps_field :=
  let pg := fresh "pg" in
  let H := fresh "H" in
  intros pg H;
  first [ exact H
        | unfold addLayer, mount, styleArrives, liftApp, onTimer, takeFetch;
          repeat match goal with
                 | |- context [match ?x with _ => _ end] => destruct x
                 end;
          exact H ].

Ltac unfold_handlers :=
  unfold onStyleLoad, onMapLoad, onLocated, onFirstFixDenied, onEezFetched,
    onLatitudeChange, onLongitudeChange, onMapStyleChange, onUseMyLocationUnsupported,
    onLocationFailed, onResetView, onRandomDemo, onFetchSettled.

(** ** The debounce of the marine fetch *)

(** At most one timer is pending, and the ref holds it. *)
Definition oneTimer (d : Debounce) : Prop :=
  timers d = [] \/
  exists id args, timers d = [(id, args)] /\ marineDebounceRef d = Some id.

Definition debounced (pg : Page) : Prop := oneTimer (debounce pg).

Lemma debounced_eezBlind : eezBlind debounced.
Proof. intros pg d. reflexivity. Qed.

Lemma refreshMarineData_debounced lat lon : keeps debounced (refreshMarineData lat lon).
Proof.
  intros pg H. unfold debounced in *.
  unfold refreshMarineData, bindP, clearPending, setMarineLoading, startTimer.
  cbn [snd debounce with_debounce marineDebounceRef timers nextTimer].
  right. exists (nextTimer (debounce pg)), (lat, lon).
  destruct H as [H|(id & args & H & Hr)]; rewrite H.
  - now destruct (marineDebounceRef (debounce pg)).
  - rewrite Hr. unfold clearTimeout. cbn [filter fst]. now rewrite Pos.eqb_refl.
Qed.

Lemma onTimer_debounced id : keeps debounced (onTimer id).
Proof.
  intros pg H. unfold debounced in *. unfold onTimer.
  destruct H as [H|(id0 & args & H & Hr)]; rewrite H; cbn [find fst]; [now left|].
  destruct (Pos.eqb id0 id) eqn:E; cbn [snd debounce with_debounce timers].
  - left. unfold clearTimeout. cbn [filter fst]. now rewrite E.
  - right. exists id0, args. now rewrite H.
Qed.

Section Debounced.

Context {turf : Turf}.
Variable randoms : nat -> Q.

Lemma updatePosition_debounced lon lat : keeps debounced (updatePosition lon lat).
Proof.
  unfold updatePosition.
  repeat first [ apply refreshMarineData_debounced | keeps_step | keeps_field ].
Qed.

Lemma addLayers_debounced p e : keeps debounced (addLayers p e).
Proof.
  unfold addLayers. repeat first [ keeps_step | keeps_field ].
Qed.

Lemma handler_debounced e : keeps debounced (handler randoms e).
Proof.
  destruct e; cbn [handler]; unfold_handlers;
    repeat first [ apply keeps_seeing; [exact debounced_eezBlind|]
                 | apply updatePosition_debounced | apply addLayers_debounced
                 | apply onTimer_debounced | keeps_step | keeps_field ].
Qed.

End Debounced.

(** X11.  However the page got to where it is (the map's events, the
    buttons, the inputs, timers firing and fetches ending, in any order),
    at most one marine request is waiting for its 600 ms, and
    [marineDebounceRef] holds its timer: every [refreshMarineData] clears
    the one before. *)
Theorem one_pending_timer (turf : Turf) (randoms : nat -> Q) (pg : Page) :
  reachable randoms pg -> oneTimer (debounce pg).
Proof.
  induction 1 as [|e pg Hr IH He].
  - now left.
  - exact (handler_debounced randoms e pg IH).
Qed.

Lemma one_pending_timer_witness :
  timers (debounce
            (@handle PlanarTurf.turf (fun _ => 0) (LatitudeTyped (Some 3))
               (@handle PlanarTurf.turf (fun _ => 0) ResetViewClicked
                  (@handle PlanarTurf.turf (fun _ => 0) Mounted initialPage))))
    = [(2%positive, (Some 3, Some 85))].
Proof.
  destruct (one_pending_timer PlanarTurf.turf (fun _ => 0)
              (@handle PlanarTurf.turf (fun _ => 0) (LatitudeTyped (Some 3))
                 (@handle PlanarTurf.turf (fun _ => 0) ResetViewClicked
                    (@handle PlanarTurf.turf (fun _ => 0) Mounted initialPage))))
    as [H|(id & args & H & _)].
  - repeat (apply reachable_step; [|exact Logic.I]). apply reachable_initial.
  - exfalso. revert H. vm_compute. discriminate.
  - reflexivity.
Defined.

(** ** The status, the alert and the distance *)

Definition alertLabel : string := "Outside Indian EEZ! Alert Coast Guard".

(** The status and the alert agree, and a distance is a text. *)
Definition coherent (st : App) : Prop :=
  (cls (safety st) = "safe" -> alertMsg st = None) /\
  (cls (safety st) = "danger" -> alertMsg st = Some alertLabel) /\
  (forall d, distToCoast st = Some d -> nonEmpty d = true).

Lemma toFixed2_nonEmpty x : nonEmpty (toFixed2 x) = true.
Proof.
  destruct x as [| |q|]; try reflexivity.
  unfold toFixed2. destruct (Qltb q 0); [reflexivity|].
  cbn [append]. destruct (digits (hundredths (Qabs q) / 100)); reflexivity.
Qed.

Definition pageCoherent (pg : Page) : Prop := coherent (app pg).

Lemma pageCoherent_eezBlind : eezBlind pageCoherent.
Proof. intros pg d. reflexivity. Qed.

Section Coherent.

Context {turf : Turf}.
Variable randoms : nat -> Q.

Lemma updateSafety_coherent lon lat st :
  coherent st -> coherent (snd (updateSafety lon lat st)).
Proof.
  intros (Hs & Hd & Hk). unfold updateSafety.
  destruct (map_current st) as [m|] eqn:Hm; [|now repeat split].
  destruct (primaryFeature (eezData st)) as [f|].
  - unfold bind, lift.
    destruct (insidePolygon (point lon lat) f) as [[|]|e]; [| |now repeat split];
      cbn [negb]; unfold ifLayer, bind; rewrite Hm;
      destruct (getLayer "boat" (layers m)); cbn; repeat split; try discriminate; auto.
  - cbn. repeat split; try discriminate; auto.
Qed.

Lemma updateDistanceToEEZ_coherent lon lat st :
  coherent st -> coherent (snd (updateDistanceToEEZ lon lat st)).
Proof.
  intros (Hs & Hd & Hk). unfold updateDistanceToEEZ.
  destruct (map_current st) as [m|]; [|now repeat split].
  destruct (primaryFeature (eezData st)) as [f|].
  - unfold bind, lift.
    destruct (polygonToLine f) as [lines|e]; [|now repeat split].
    destruct (nearestPointOnLine lines (point lon lat)) as [np|e]; [|now repeat split].
    destruct (distance (point lon lat) np) as [d|e]; [|now repeat split].
    cbn. repeat split; auto. intros d' [= <-]. apply toFixed2_nonEmpty.
  - cbn. repeat split; auto. discriminate.
Qed.

Lemma updateSafetyAt_coherent lon lat st :
  coherent st -> coherent (snd (updateSafetyAt lon lat st)).
Proof.
  intros H. pose proof H as (Hs & Hd & Hk).
  destruct lon as [x|], lat as [y|]; cbn [updateSafetyAt];
    try (apply updateSafety_coherent; exact H);
    (destruct (map_current st); [|exact H]);
    (destruct (primaryFeature (eezData st)); [exact H|]);
    cbn; repeat split; try discriminate; auto.
Qed.

Lemma updateDistanceToEEZAt_coherent lon lat st :
  coherent st -> coherent (snd (updateDistanceToEEZAt lon lat st)).
Proof.
  intros H.
  destruct lon as [x|], lat as [y|]; cbn [updateDistanceToEEZAt];
    try (apply updateDistanceToEEZ_coherent; exact H);
    destruct (map_current st); exact H.
Qed.

Lemma getRandomDemoLocation_coherent st :
  coherent st -> coherent (snd (getRandomDemoLocation randoms st)).
Proof.
  intros H. rewrite getRandomDemoLocation_steps.
  destruct (drawnRegion randoms st); exact H.
Qed.

Lemma liftApp_coherent {A} (c : M A) :
  (forall st, coherent st -> coherent (snd (c st))) -> keeps pageCoherent (liftApp c).
Proof.
  intros Hc pg H. unfold liftApp. specialize (Hc (app pg) H).
  destruct (c (app pg)). exact Hc.
Qed.

Lemma updatePosition_coherent lon lat : keeps pageCoherent (updatePosition lon lat).
Proof.
  unfold updatePosition, refreshMarineData.
  repeat first
    [ keeps_step
    | apply liftApp_coherent; intro;
      first [ apply updateSafetyAt_coherent | apply updateDistanceToEEZAt_coherent ]
    | keeps_field ].
Qed.

Lemma addLayers_coherent p e : keeps pageCoherent (addLayers p e).
Proof.
  unfold addLayers. repeat first [ keeps_step | keeps_field ].
Qed.

Lemma handler_coherent e : keeps pageCoherent (handler randoms e).
Proof.
  destruct e; cbn [handler]; unfold_handlers;
    repeat first
      [ apply keeps_seeing; [exact pageCoherent_eezBlind|]
      | apply updatePosition_coherent | apply addLayers_coherent
      | keeps_step
      | apply liftApp_coherent; intro; apply getRandomDemoLocation_coherent
      | keeps_field ].
Qed.

Lemma reachable_coherent pg : reachable randoms pg -> coherent (app pg).
Proof.
  induction 1 as [|e pg Hr IH He].
  - repeat split; discriminate.
  - exact (handler_coherent e pg IH).
Qed.

End Coherent.

(** X12.  On every page the component can reach, what is shown agrees with
    itself: the emergency button comes with the alert banner, the card
    "Safe" with no banner, the card "Outside EEZ" with the banner, and a
    distance that is stored is shown, on the card and on the line.  (The
    banner can stay without the status: see X13.) *)
Theorem shown_status_coherent (turf : Turf) (randoms : nat -> Q) (pg : Page) :
  reachable randoms pg ->
  (emergencyButton (render pg) = true -> alertBanner (render pg) = Some alertLabel) /\
  (locationStatusCard (render pg) = "Safe" -> alertBanner (render pg) = None) /\
  (locationStatusCard (render pg) = "Outside EEZ" ->
   alertBanner (render pg) = Some alertLabel) /\
  (forall d, distToCoast (app pg) = Some d ->
   distanceCard (render pg) = (d ++ " km")%string /\
   distanceLine (render pg) = (d ++ " km")%string).
Proof.
  intros Hr. destruct (reachable_coherent randoms pg Hr) as (Hs & Hd & Hk).
  unfold render. cbn [emergencyButton alertBanner locationStatusCard distanceCard distanceLine].
  repeat split.
  - intros Hb. apply andb_true_iff in Hb as [Hb _]. apply String.eqb_eq in Hb.
    now rewrite (Hd Hb).
  - destruct (String.eqb (cls (safety (app pg))) "safe") eqn:E.
    + apply String.eqb_eq in E. now rewrite (Hs E).
    + destruct (String.eqb (cls (safety (app pg))) "danger"); discriminate.
  - destruct (String.eqb (cls (safety (app pg))) "safe") eqn:E; [discriminate|].
    destruct (String.eqb (cls (safety (app pg))) "danger") eqn:E'; [|discriminate].
    apply String.eqb_eq in E'. now rewrite (Hd E').
  - rewrite H. now rewrite (Hk d H).
  - rewrite H. now rewrite (Hk d H).
Qed.

Lemma shown_status_coherent_witness :
  alertBanner
    (render (@handle PlanarTurf.turf (fun _ => 0) (Located (boundarySet squareFeature []) 15 5)
               (@handle PlanarTurf.turf (fun _ => 0) (EezFetched {| features := Some [squareFeature] |})
                  (@handle PlanarTurf.turf (fun _ => 0) Mounted initialPage))))
    = Some alertLabel.
Proof.
  destruct (shown_status_coherent PlanarTurf.turf (fun _ => 0)
              (@handle PlanarTurf.turf (fun _ => 0) (Located (boundarySet squareFeature []) 15 5)
                 (@handle PlanarTurf.turf (fun _ => 0)
                    (EezFetched {| features := Some [squareFeature] |})
                    (@handle PlanarTurf.turf (fun _ => 0) Mounted initialPage))))
    as (_ & _ & H & _).
  - apply reachable_step; [|right; reflexivity].
    apply reachable_step; [|reflexivity].
    apply reachable_step; [|exact Logic.I]. apply reachable_initial.
  - apply H. vm_compute. reflexivity.
Defined.


(** ** Handlers that return *)

(** From [Pre], [c] returns and leaves [Post]. *)
Definition returns {A} (Pre : Page -> Prop) (c : P A) (Post : Page -> Prop) : Prop :=
  forall pg, Pre pg -> (exists a, fst (c pg) = Normal a) /\ Post (snd (c pg)).

Definition mapThere (pg : Page) : Prop := map_current (app pg) <> None.

Lemma returns_retP {A} (Pre : Page -> Prop) (a : A) : returns Pre (retP a) Pre.
Proof. intros pg H. split; [now exists a|exact H]. Qed.

Lemma returns_bindP {A B} (Pre Mid Post : Page -> Prop) (c : P A) (k : A -> P B) :
  returns Pre c Mid -> (forall a, returns Mid (k a) Post) -> returns Pre (bindP c k) Post.
Proof.
  intros Hc Hk pg H. unfold bindP. destruct (Hc pg H) as [[a Ha] Hm].
  destruct (c pg) as [r pg']. cbn [fst snd] in *. subst r. apply Hk, Hm.
Qed.

Lemma returns_weaken {A} (Pre Pre' Post Post' : Page -> Prop) (c : P A) :
  returns Pre c Post -> (forall pg, Pre' pg -> Pre pg) -> (forall pg, Post pg -> Post' pg) ->
  returns Pre' c Post'.
Proof. intros Hc H1 H2 pg H. destruct (Hc pg (H1 pg H)) as [Ha Hp]. split; auto. Qed.

Lemma returns_onMap {A} (Pre Post : Page -> Prop) (c : P A) :
  (forall pg, Pre pg -> mapThere pg) -> returns Pre c Post -> returns Pre (onMap c) Post.
Proof.
  intros Hm Hc pg H. unfold onMap. specialize (Hm pg H). unfold mapThere in Hm.
  destruct (map_current (app pg)); [apply Hc, H|congruence].
Qed.

Lemma returns_ifBoatSource {A} (Pre Post : Page -> Prop) (yes no : P A) :
  returns (fun pg => Pre pg /\ boatSource (mapRest pg) <> None) yes Post ->
  returns (fun pg => Pre pg /\ boatSource (mapRest pg) = None) no Post ->
  returns Pre (ifBoatSource yes no) Post.
Proof.
  intros Hy Hn pg H. unfold ifBoatSource.
  destruct (boatSource (mapRest pg)) eqn:E; [apply Hy|apply Hn]; split; congruence.
Qed.

Lemma returns_ifEezSource {A} (Pre Post : Page -> Prop) (yes no : P A) :
  returns (fun pg => Pre pg /\ eezSource (mapRest pg) <> None) yes Post ->
  returns (fun pg => Pre pg /\ eezSource (mapRest pg) = None) no Post ->
  returns Pre (ifEezSource yes no) Post.
Proof.
  intros Hy Hn pg H. unfold ifEezSource.
  destruct (eezSource (mapRest pg)) eqn:E; [apply Hy|apply Hn]; split; congruence.
Qed.

Lemma returns_seeing {A} (Pre Post : Page -> Prop) seen (c : P A) :
  eezBlind Post -> returns Pre c Post ->
  returns (fun pg => Pre (with_app (with_eezData seen (app pg)) pg)) (seeing seen c) Post.
Proof.
  intros Hb Hc pg H. unfold seeing. destruct (Hc _ H) as [Ha Hp].
  destruct (c (with_app (with_eezData seen (app pg)) pg)) as [r pg']. cbn [fst snd] in *.
  split; [exact Ha|]. apply Hb. exact Hp.
Qed.

(** [addLayer] on a map that is there. *)
Lemma returns_addLayer (I : Page -> Prop) id color :
  (forall pg, I pg -> mapThere pg) ->
  (forall pg ls, I pg -> I (with_app (with_map (Some {| layers := ls |}) (app pg)) pg)) ->
  returns I (addLayer id color) I.
Proof.
  intros Hm Hl pg H. unfold addLayer. specialize (Hm pg H). unfold mapThere in Hm.
  destruct (map_current (app pg)) as [m|]; [|congruence].
  destruct (getLayer id (layers m)); (split; [now exists tt|]); [exact H|apply Hl, H].
Qed.

(** After [addLayers] the two sources are there, and the boundary's is the
    one of the render when that render had one. *)
Definition sourcesOf (seenEez : option FeatureCollection) (pg : Page) : Prop :=
  mapThere pg /\ boatSource (mapRest pg) <> None /\
  match seenEez with
  | Some geojson => eezSource (mapRest pg) = Some (FromGeojson geojson)
  | None => eezSource (mapRest pg) <> None
  end.

Lemma addLayers_returns (I : Page -> Prop) seenPos seenEez :
  (forall pg ls, I pg -> I (with_app (with_map (Some {| layers := ls |}) (app pg)) pg)) ->
  (forall pg r, I pg -> I (with_mapRest r pg)) ->
  returns (fun pg => mapThere pg /\ I pg) (addLayers seenPos seenEez)
          (fun pg => sourcesOf seenEez pg /\ I pg).
Proof.
  intros Hl Hr. unfold addLayers. apply returns_onMap; [now intros pg [H _]|].
  apply returns_bindP with
    (Mid := fun pg => (mapThere pg /\ I pg) /\
                      match seenEez with
                      | Some geojson => eezSource (mapRest pg) = Some (FromGeojson geojson)
                      | None => eezSource (mapRest pg) <> None
                      end).
  - apply returns_ifEezSource.
    + destruct seenEez as [g|].
      * intros pg [[Hm Hi] He]. split; [now exists tt|].
        cbn. repeat split; auto.
      * intros pg [[Hm Hi] He]. split; [now exists tt|]. cbn. auto.
    + apply returns_bindP with
        (Mid := fun pg => (mapThere pg /\ I pg) /\
                      match seenEez with
                      | Some geojson => eezSource (mapRest pg) = Some (FromGeojson geojson)
                      | None => eezSource (mapRest pg) <> None
                      end).
      * intros pg [[Hm Hi] He]. split; [now exists tt|]. cbn.
        repeat split; auto. destruct seenEez; [reflexivity|discriminate].
      * intros _. apply returns_bindP with
        (Mid := fun pg => (mapThere pg /\ I pg) /\
                      match seenEez with
                      | Some geojson => eezSource (mapRest pg) = Some (FromGeojson geojson)
                      | None => eezSource (mapRest pg) <> None
                      end); [|intros _];
          (apply returns_addLayer;
           [ now intros pg [[Hm _] _]
           | intros pg ls [[Hm Hi] He]; repeat split;
             [ discriminate | apply Hl, Hi | exact He ] ]).
  - intros _. apply returns_ifBoatSource.
    + intros pg [[[Hm Hi] He] Hb]. split; [now exists tt|]. cbn. unfold sourcesOf. auto.
    + apply returns_bindP with
        (Mid := fun pg => sourcesOf seenEez pg /\ I pg).
      * intros pg [[[Hm Hi] He] Hb]. split; [now exists tt|]. cbn.
        unfold sourcesOf. cbn. repeat split; auto. discriminate.
      * intros _. apply returns_addLayer.
        -- now intros pg [[Hm _] _].
        -- intros pg ls [(Hm & Hb & He) Hi]. unfold sourcesOf. cbn.
           repeat split; auto. discriminate.
Qed.


(** ** The callbacks of the first render, continued *)

(** No boundary set is seen, and the alert is [a0]. *)
Definition unloadedSeen (a0 : option string) (pg : Page) : Prop :=
  primaryFeature (eezData (app pg)) = None /\ alertMsg (app pg) = a0.

(** The page shows that the boundary is not loaded; the alert is [a0]. *)
Definition unclassified (a0 : option string) (pg : Page) : Prop :=
  safety (app pg) = notLoaded /\ distToCoast (app pg) = None /\ alertMsg (app pg) = a0.

Lemma unclassified_eezBlind a0 : eezBlind (unclassified a0).
Proof. intros pg d. reflexivity. Qed.

Section FirstRenderFix.

Context {turf : Turf}.
Variable randoms : nat -> Q.

Lemma updatePosition_unclassified a0 lon lat center zoom :
  returns (fun pg => mapThere pg /\ unloadedSeen a0 pg)
          (bindP (updatePosition (Some lon) (Some lat)) (fun _ => flyTo center zoom))
          (unclassified a0).
Proof.
  intros pg [Hm [He Ha]]. unfold mapThere in Hm.
  destruct (map_current (app pg)) as [m|] eqn:Em; [|congruence].
  unfold bindP. rewrite (updatePosition_unloaded pg m lon lat Em He).
  unfold flyTo, onMap. cbn. rewrite Em. cbn.
  split; [now exists tt|]. repeat split. exact Ha.
Qed.

Lemma firstRenderFix_returns a0 e :
  firstRenderFix e ->
  returns (fun pg => mapThere pg /\ alertMsg (app pg) = a0) (handler randoms e)
          (unclassified a0).
Proof.
  intros Hf.
  destruct e as [| |[|]|[g|] lon lat| | | | | | | | | | |]; try contradiction;
    cbn [handler]; unfold onMapLoad, onLocated, onFirstFixDenied;
    (eapply returns_weaken;
     [ apply (returns_seeing (fun pg => mapThere pg /\ unloadedSeen a0 pg)
                (unclassified a0)); [apply unclassified_eezBlind|]
     | intros pg [Hm Ha]; split; [exact Hm|split; [reflexivity|exact Ha]]
     | intros pg H; exact H ]).
  - apply returns_bindP with (Mid := fun pg => mapThere pg /\ unloadedSeen a0 pg);
      [|intros _; apply updatePosition_unclassified].
    eapply returns_weaken;
      [ apply (addLayers_returns (unloadedSeen a0)) | intros pg H; exact H
      | intros pg [(Hm & _) Hi]; split; assumption ];
      intros pg x H; exact H.
  - apply returns_bindP with (Mid := fun pg => mapThere pg /\ unloadedSeen a0 pg);
      [|intros _; apply updatePosition_unclassified].
    intros pg H. split; [now exists tt|exact H].
  - apply returns_bindP with (Mid := fun pg => mapThere pg /\ unloadedSeen a0 pg);
      [|intros _; apply updatePosition_unclassified].
    intros pg H. split; [now exists tt|exact H].
Qed.

End FirstRenderFix.

(** X13.  A position that comes through a callback of the first render (the
    first fix of the device, its refusal, or the default when the browser
    has no geolocation) is never classified, and neither is the fix asked
    for with "Use My Location" before the boundary arrived: the handler
    reads the [eezData] of its own render, which is [null].  Whatever
    boundary the page holds by then, it says "EEZ data not loaded", shows
    no distance, and leaves the alert as it was. *)
Theorem first_fix_never_classified (turf : Turf) (randoms : nat -> Q) (pg : Page)
    (e : Event) :
  map_current (app pg) <> None ->
  firstRenderFix e ->
  fst (handler randoms e pg) = Normal tt /\
  safety (app (handle randoms e pg)) = notLoaded /\
  distToCoast (app (handle randoms e pg)) = None /\
  alertMsg (app (handle randoms e pg)) = alertMsg (app pg).
Proof.
  intros Hm Hf.
  destruct (firstRenderFix_returns randoms (alertMsg (app pg)) e Hf pg (conj Hm eq_refl))
    as [[[] Hr] Hu].
  split; [exact Hr|exact Hu].
Qed.

Lemma first_fix_never_classified_witness :
  statusText
    (render (@handle PlanarTurf.turf (fun _ => 0) (Located None 15 5)
               (loadedPage (mounted squareFeature))))
    = "EEZ data not loaded".
Proof.
  destruct (first_fix_never_classified PlanarTurf.turf (fun _ => 0)
              (loadedPage (mounted squareFeature)) (Located None 15 5))
    as (_ & H & _).
  - discriminate.
  - exact Logic.I.
  - unfold render. cbn [statusText]. rewrite H. reflexivity.
Defined.


(** ** [style.load] *)

(** What [style.load] does not write. *)
Definition besideMap (pg0 pg : Page) : Prop :=
  pos pg = pos pg0 /\ safety (app pg) = safety (app pg0) /\
  alertMsg (app pg) = alertMsg (app pg0) /\ distToCoast (app pg) = distToCoast (app pg0).

Lemma besideMap_eezBlind pg0 : eezBlind (fun pg => boatSource (mapRest pg) = Some centerDefault /\ besideMap pg0 pg).
Proof. intros pg d. reflexivity. Qed.

Lemma onStyleLoad_returns pg0 :
  returns (fun pg => mapThere pg /\ besideMap pg0 pg) onStyleLoad
          (fun pg => boatSource (mapRest pg) = Some centerDefault /\ besideMap pg0 pg).
Proof.
  unfold onStyleLoad.
  eapply returns_weaken;
    [ apply (returns_seeing (fun pg => mapThere pg /\ besideMap pg0 pg));
      [apply besideMap_eezBlind|]
    | intros pg H; exact H | intros pg H; exact H ].
  apply returns_bindP with (Mid := fun pg => sourcesOf firstEez pg /\ besideMap pg0 pg).
  - apply (addLayers_returns (besideMap pg0)); intros pg x H; exact H.
  - intros _. apply returns_onMap; [now intros pg [[Hm _] _]|].
    apply returns_ifBoatSource.
    + intros pg [[_ Hi] _]. split; [now exists tt|]. split; [reflexivity|exact Hi].
    + intros pg [[(_ & Hb & _) _] Hn]. contradiction.
Qed.

(** X14.  Whenever a style has loaded, the boat marker is put on the default
    centre, whatever the position of the page is: the handler of
    [style.load] reads the [pos] of the first render, whose coordinates are
    [null].  The position, the status, the alert and the distance stay, so
    the marker and the page disagree until the next [updatePosition]. *)
Theorem style_load_recentres_boat (pg : Page) :
  map_current (app pg) <> None ->
  fst (onStyleLoad pg) = Normal tt /\
  boatSource (mapRest (snd (onStyleLoad pg))) = Some centerDefault /\
  pos (snd (onStyleLoad pg)) = pos pg /\
  safety (app (snd (onStyleLoad pg))) = safety (app pg) /\
  alertMsg (app (snd (onStyleLoad pg))) = alertMsg (app pg) /\
  distToCoast (app (snd (onStyleLoad pg))) = distToCoast (app pg).
Proof.
  intros Hm.
  destruct (onStyleLoad_returns pg pg) as [[[] Hr] [Hb Hi]].
  - split; [exact Hm|]. repeat split.
  - split; [exact Hr|]. split; [exact Hb|exact Hi].
Qed.

Lemma style_load_recentres_boat_witness :
  boatSource
    (mapRest
       (snd (onStyleLoad
               (snd (@updatePosition PlanarTurf.turf (Some 15) (Some 5)
                       (loadedPage (mounted squareFeature)))))))
    = Some (85, 12)%Q /\
  pos (snd (onStyleLoad
              (snd (@updatePosition PlanarTurf.turf (Some 15) (Some 5)
                      (loadedPage (mounted squareFeature))))))
    = {| pos_lon := Some 15; pos_lat := Some 5 |}.
Proof.
  destruct (style_load_recentres_boat
              (snd (@updatePosition PlanarTurf.turf (Some 15) (Some 5)
                      (loadedPage (mounted squareFeature)))))
    as (_ & Hb & Hp & _).
  - vm_compute. discriminate.
  - split; [exact Hb|]. rewrite Hp. vm_compute. reflexivity.
Defined.

(** ** [addLayers] twice *)

Lemma setEezSource_same d pg :
  eezSource (mapRest pg) = Some d -> setEezSource (Some d) pg = (Normal tt, pg).
Proof.
  destruct pg as [a p md ml dm ms [su rs es bs cam] db al]. cbn. intros ->. reflexivity.
Qed.

Lemma addLayers_again seenPos seenEez pg :
  sourcesOf seenEez pg -> addLayers seenPos seenEez pg = (Normal tt, pg).
Proof.
  intros (Hm & Hb & He). unfold mapThere in Hm.
  unfold addLayers, onMap, bindP, ifEezSource, ifBoatSource.
  destruct (map_current (app pg)) as [m|]; [|congruence].
  destruct seenEez as [g|].
  - rewrite He, (setEezSource_same _ _ He).
    destruct (boatSource (mapRest pg)); [reflexivity|congruence].
  - destruct (eezSource (mapRest pg)); [|congruence]. cbn.
    destruct (boatSource (mapRest pg)); [reflexivity|congruence].
Qed.

(** X15.  [addLayers] can be called again (the handlers of [load] and of
    [style.load] both call it): once the map is there, it returns, and a
    second call returns too and changes nothing, neither a source nor a
    layer. *)
Theorem addLayers_idempotent (seenPos : Pos)
    (seenEez : option FeatureCollection) (pg : Page) :
  map_current (app pg) <> None ->
  fst (addLayers seenPos seenEez pg) = Normal tt /\
  addLayers seenPos seenEez (snd (addLayers seenPos seenEez pg))
  = (Normal tt, snd (addLayers seenPos seenEez pg)).
Proof.
  intros Hm.
  destruct (addLayers_returns (fun _ => True) seenPos seenEez
              (fun _ _ _ => Logic.I) (fun _ _ _ => Logic.I) pg (conj Hm Logic.I))
    as [[[] Hr] [Hs _]].
  split; [exact Hr|]. apply addLayers_again, Hs.
Qed.

Lemma addLayers_idempotent_witness :
  map_current
    (app (snd (addLayers firstPos firstEez
                 (snd (addLayers firstPos firstEez
                         (snd (mount initialPage)))))))
  = Some {| layers := [("eez-fill", ""); ("eez-line", ""); ("boat", "#FFD400")] |}.
Proof.
  destruct (addLayers_idempotent firstPos firstEez (snd (mount initialPage)))
    as [_ H].
  - discriminate.
  - rewrite H. reflexivity.
Defined.


(** ** The demo mode *)

Definition demoIs (b : bool) (pg : Page) : Prop := isDemoMode pg = b.

Lemma demoIs_eezBlind b : eezBlind (demoIs b).
Proof. intros pg d. reflexivity. Qed.

Section DemoMode.

Context {turf : Turf}.
Variable randoms : nat -> Q.

Lemma updatePosition_demoIs b lon lat : keeps (demoIs b) (updatePosition lon lat).
Proof.
  unfold updatePosition, refreshMarineData. repeat first [ keeps_step | keeps_field ].
Qed.

Lemma addLayers_demoIs b p e : keeps (demoIs b) (addLayers p e).
Proof.
  unfold addLayers. repeat first [ keeps_step | keeps_field ].
Qed.

(** The handlers that set the mode set it first. *)
Lemma handler_sets_demo e b :
  match e with
  | Located _ _ _ => b = false
  | FirstFixDenied | RandomDemoClicked => b = true
  | _ => False
  end ->
  forall pg, demoIs b (snd (handler randoms e pg)).
Proof.
  destruct e; try contradiction; intros ->; cbn [handler]; unfold_handlers;
    try (apply after_seeing; [apply demoIs_eezBlind|]);
    (apply after_bindP; [reflexivity|intros _]);
    repeat first [ apply updatePosition_demoIs | keeps_step | keeps_field ].
Qed.

Lemma handler_keeps_demo e b :
  match e with
  | Located _ _ _ | FirstFixDenied | RandomDemoClicked => False
  | _ => True
  end ->
  keeps (demoIs b) (handler randoms e).
Proof.
  destruct e; try contradiction; intros _; cbn [handler]; unfold_handlers;
    repeat first
      [ apply keeps_seeing; [apply demoIs_eezBlind|]
      | apply updatePosition_demoIs | apply addLayers_demoIs
      | keeps_step | keeps_field ].
Qed.

End DemoMode.

(** X16.  What decides the demo mode, and with it the emergency button: a
    fix of the device leaves the mode, its refusal at the start and the
    button "Random Demo Location" enter it, and nothing else writes it
    (neither "Reset View" nor a typed coordinate nor the default position
    of a browser without geolocation).  So after a fix of the device the
    emergency button is not offered, wherever the vessel is. *)
Theorem demo_mode_by_event (turf : Turf) (randoms : nat -> Q) (e : Event) (pg : Page) :
  isDemoMode (handle randoms e pg)
  = match e with
    | Located _ _ _ => false
    | FirstFixDenied | RandomDemoClicked => true
    | _ => isDemoMode pg
    end /\
  match e with
  | Located _ _ _ => emergencyButton (render (handle randoms e pg)) = false
  | _ => True
  end.
Proof.
  assert (H : isDemoMode (handle randoms e pg)
              = match e with
                | Located _ _ _ => false
                | FirstFixDenied | RandomDemoClicked => true
                | _ => isDemoMode pg
                end).
  { destruct e;
      match goal with
      | |- isDemoMode (handle _ ?ev _) = ?b =>
          first [ exact (handler_sets_demo randoms ev b eq_refl pg)
                | exact (handler_keeps_demo randoms ev b Logic.I pg eq_refl) ]
      end. }
  split; [exact H|].
  destruct e; try exact Logic.I.
  unfold render. cbn [emergencyButton]. rewrite H. apply andb_false_r.
Qed.


(** ** The two inputs *)

Definition posIs (p : Pos) (pg : Page) : Prop := pos pg = p.

Section Inputs.

Context {turf : Turf}.
Variable randoms : nat -> Q.

(** [updatePosition] stores the position first; what follows may throw and
    does not write it. *)
Lemma updatePosition_pos lon lat pg :
  pos (snd (updatePosition lon lat pg)) = {| pos_lon := lon; pos_lat := lat |}.
Proof.
  revert pg. unfold updatePosition.
  apply (after_bindP (posIs {| pos_lon := lon; pos_lat := lat |})); [reflexivity|intros _].
  unfold refreshMarineData. repeat first [ keeps_step | keeps_field ].
Qed.

(** With the map there, [updatePosition] throws on a [null] coordinate, in
    [turf.point], and leaves the alert and the distance. *)
Lemma updatePosition_null lon lat pg :
  map_current (app pg) <> None ->
  lon = None \/ lat = None ->
  fst (updatePosition lon lat pg) = Throw "coordinates must contain numbers" /\
  alertMsg (app (snd (updatePosition lon lat pg))) = alertMsg (app pg) /\
  distToCoast (app (snd (updatePosition lon lat pg))) = distToCoast (app pg).
Proof.
  intros Hm Hn.
  assert (Hp : pointOf lon lat = Throw "coordinates must contain numbers").
  { destruct Hn as [-> | ->]; [|destruct lon]; reflexivity. }
  assert (Hs : updateSafetyAt lon lat = updateSafetyAt None None).
  { destruct Hn as [-> | ->]; [destruct lat|destruct lon]; reflexivity. }
  assert (Hd : updateDistanceToEEZAt lon lat = updateDistanceToEEZAt None None).
  { destruct Hn as [-> | ->]; [destruct lat|destruct lon]; reflexivity. }
  unfold updatePosition, bindP, setPos, ifMap, ifBoatSource, liftR, refreshMarineData,
    clearPending, setMarineLoading, startTimer, bindP, liftApp, retP.
  rewrite Hp, Hs, Hd. cbn.
  destruct (map_current (app pg)) as [m|] eqn:Em; [|congruence].
  destruct (boatSource (mapRest pg)); [now repeat split|].
  cbn. rewrite Em.
  destruct (primaryFeature (eezData (app pg))); cbn; [|rewrite Em]; now repeat split.
Qed.

End Inputs.

(** X17.  What is typed into a coordinate input is stored and shown back,
    whatever else the handler does or throws, and the other input keeps its
    value; a text that is no number changes nothing.  A zero is stored and
    shown as an empty input ([pos.lat || '']). *)
Theorem typed_coordinate_shown (turf : Turf) (randoms : nat -> Q) (pg : Page) (q : Q) :
  latitudeField (render (handle randoms (LatitudeTyped (Some q)) pg))
  = (if Qeq_bool q 0 then None else Some q) /\
  longitudeField (render (handle randoms (LatitudeTyped (Some q)) pg))
  = longitudeField (render pg) /\
  longitudeField (render (handle randoms (LongitudeTyped (Some q)) pg))
  = (if Qeq_bool q 0 then None else Some q) /\
  latitudeField (render (handle randoms (LongitudeTyped (Some q)) pg))
  = latitudeField (render pg) /\
  handle randoms (LatitudeTyped None) pg = pg /\
  handle randoms (LongitudeTyped None) pg = pg.
Proof.
  unfold handle, render. cbn [handler onLatitudeChange onLongitudeChange latitudeField
                              longitudeField].
  unfold withPos. rewrite !updatePosition_pos. repeat split.
Qed.

(** X18.  A coordinate typed while the other one is still [null] (no
    position has been set yet) is stored, and with the map there the
    handler then throws in [turf.point]: no distance is computed and the
    alert stays as it was. *)
Theorem typed_beside_null_throws (turf : Turf) (randoms : nat -> Q) (pg : Page) (q : Q) :
  map_current (app pg) <> None ->
  pos_lon (pos pg) = None ->
  fst (handler randoms (LatitudeTyped (Some q)) pg)
  = Throw "coordinates must contain numbers" /\
  pos (handle randoms (LatitudeTyped (Some q)) pg)
  = {| pos_lon := None; pos_lat := Some q |} /\
  alertMsg (app (handle randoms (LatitudeTyped (Some q)) pg)) = alertMsg (app pg) /\
  distToCoast (app (handle randoms (LatitudeTyped (Some q)) pg)) = distToCoast (app pg).
Proof.
  intros Hm Hn. unfold handle. cbn [handler onLatitudeChange]. unfold withPos.
  rewrite Hn.
  destruct (updatePosition_null None (Some q) pg Hm (or_introl eq_refl)) as (Ht & Ha & Hd).
  rewrite updatePosition_pos. repeat split; assumption.
Qed.

Lemma typed_beside_null_throws_witness :
  fst (@handler PlanarTurf.turf (fun _ => 0) (LatitudeTyped (Some 5))
         (loadedPage (mounted squareFeature)))
  = Throw "coordinates must contain numbers".
Proof.
  apply (typed_beside_null_throws PlanarTurf.turf (fun _ => 0)
           (loadedPage (mounted squareFeature)) 5).
  - discriminate.
  - reflexivity.
Defined.


(** ** No status without a boundary *)

(** Nothing is classified or measured, or the boundary [real] has the
    feature that is read. *)
Definition needsBoundary (real : option FeatureCollection) (st : App) : Prop :=
  (cls (safety st) = "warn" /\ alertMsg st = None /\ distToCoast st = None) \/
  primaryFeature real <> None.

(** A handler that sees [seen] while the page holds [real]. *)
Definition guarded (seen real : option FeatureCollection) (pg : Page) : Prop :=
  eezData (app pg) = seen /\ needsBoundary real (app pg).

Section NeedsBoundary.

Context {turf : Turf}.
Variable randoms : nat -> Q.
Variables seen real : option FeatureCollection.
Hypothesis seen_real : primaryFeature seen <> None -> primaryFeature real <> None.

Let G (st : App) : Prop := eezData st = seen /\ needsBoundary real st.

Lemma updateSafety_guarded lon lat st : G st -> G (snd (updateSafety lon lat st)).
Proof.
  intros [He Hn]. unfold updateSafety.
  destruct (map_current st) as [m|] eqn:Hm; [|now split].
  destruct (primaryFeature (eezData st)) as [f|] eqn:Hf.
  - assert (Hr : primaryFeature real <> None) by (apply seen_real; congruence).
    unfold bind, lift.
    destruct (insidePolygon (point lon lat) f) as [[|]|e]; [| |now split];
      cbn [negb]; unfold ifLayer, bind; rewrite Hm;
      destruct (getLayer "boat" (layers m)); cbn; (split; [exact He|now right]).
  - cbn. split; [exact He|].
    destruct Hn as [(_ & Ha & Hd)|Hr]; [left|right]; auto.
Qed.

Lemma updateDistanceToEEZ_guarded lon lat st : G st -> G (snd (updateDistanceToEEZ lon lat st)).
Proof.
  intros [He Hn]. unfold updateDistanceToEEZ.
  destruct (map_current st) as [m|]; [|now split].
  destruct (primaryFeature (eezData st)) as [f|] eqn:Hf.
  - assert (Hr : primaryFeature real <> None) by (apply seen_real; congruence).
    unfold bind, lift.
    destruct (polygonToLine f) as [lines|e]; [|now split].
    destruct (nearestPointOnLine lines (point lon lat)) as [np|e]; [|now split].
    destruct (distance (point lon lat) np) as [d|e]; [|now split].
    cbn. split; [exact He|now right].
  - cbn. split; [exact He|].
    destruct Hn as [(Hc & Ha & _)|Hr]; [left|right]; auto.
Qed.

Lemma updateSafetyAt_guarded lon lat st : G st -> G (snd (updateSafetyAt lon lat st)).
Proof.
  intros H. pose proof H as [He Hn].
  destruct lon as [x|], lat as [y|]; cbn [updateSafetyAt];
    try (apply updateSafety_guarded; exact H);
    (destruct (map_current st); [|exact H]);
    (destruct (primaryFeature (eezData st)); [exact H|]);
    cbn; (split; [exact He|]);
    (destruct Hn as [(_ & Ha & Hd)|Hr]; [left|right]; auto).
Qed.

Lemma updateDistanceToEEZAt_guarded lon lat st :
  G st -> G (snd (updateDistanceToEEZAt lon lat st)).
Proof.
  intros H.
  destruct lon as [x|], lat as [y|]; cbn [updateDistanceToEEZAt];
    try (apply updateDistanceToEEZ_guarded; exact H);
    destruct (map_current st); exact H.
Qed.

Lemma getRandomDemoLocation_guarded st : G st -> G (snd (getRandomDemoLocation randoms st)).
Proof.
  intros H. rewrite getRandomDemoLocation_steps.
  destruct (drawnRegion randoms st); exact H.
Qed.

Lemma liftApp_guarded {A} (c : M A) :
  (forall st, G st -> G (snd (c st))) -> keeps (guarded seen real) (liftApp c).
Proof.
  intros Hc pg H. unfold liftApp. specialize (Hc (app pg) H).
  destruct (c (app pg)). exact Hc.
Qed.

Lemma updatePosition_guarded lon lat : keeps (guarded seen real) (updatePosition lon lat).
Proof.
  unfold updatePosition, refreshMarineData.
  repeat first
    [ keeps_step
    | apply liftApp_guarded; intro;
      first [ apply updateSafetyAt_guarded | apply updateDistanceToEEZAt_guarded ]
    | keeps_field ].
Qed.

Lemma addLayers_guarded p e : keeps (guarded seen real) (addLayers p e).
Proof.
  unfold addLayers. repeat first [ keeps_step | keeps_field ].
Qed.

(** A handler created in a render that saw [seen], run on a page that holds
    [real]. *)
Lemma seeing_guarded {A} (c : P A) :
  keeps (guarded seen real) c -> keeps (guarded real real) (seeing seen c).
Proof.
  intros Hc pg [He Hn]. unfold seeing.
  assert (H : guarded seen real (with_app (with_eezData seen (app pg)) pg))
    by (split; [reflexivity|exact Hn]).
  specialize (Hc _ H).
  destruct (c (with_app (with_eezData seen (app pg)) pg)) as [r pg']. cbn [snd] in *.
  destruct Hc as [_ Hn']. split; [exact He|exact Hn'].
Qed.

End NeedsBoundary.

Section NeedsBoundaryMachine.

Context {turf : Turf}.
Variable randoms : nat -> Q.

Lemma handler_guarded real e pg :
  match e with EezFetched _ => False | _ => True end ->
  enabled e pg -> eezData (app pg) = real ->
  keeps (guarded real real) (handler randoms e).
Proof.
  intros Hn He Hr.
  assert (H0 : primaryFeature (@None FeatureCollection) <> None -> primaryFeature real <> None)
    by (intros H; now contradiction H).
  assert (H1 : primaryFeature real <> None -> primaryFeature real <> None)
    by (intros H; exact H).
  destruct e; try contradiction; cbn [handler enabled] in *; unfold_handlers;
    unfold firstEez; try (destruct He as [-> | ->]; subst real);
    repeat first
      [ apply seeing_guarded
      | apply updatePosition_guarded; first [exact H0 | exact H1]
      | apply addLayers_guarded
      | keeps_step
      | apply liftApp_guarded; intro; apply getRandomDemoLocation_guarded
      | keeps_field ].
Qed.

End NeedsBoundaryMachine.

Section NeedsBoundaryReachable.

Context {turf : Turf}.
Variable randoms : nat -> Q.

Lemma onEezFetched_unclassified geojson :
  keeps (fun pg => cls (safety (app pg)) = "warn" /\ alertMsg (app pg) = None /\
                   distToCoast (app pg) = None)
        (onEezFetched geojson).
Proof.
  unfold onEezFetched. repeat first [ keeps_step | keeps_field ].
Qed.

Lemma reachable_needsBoundary pg :
  reachable randoms pg -> needsBoundary (eezData (app pg)) (app pg).
Proof.
  induction 1 as [|e pg Hr IH He].
  - left. repeat split.
  - destruct e as [| | | | |g| | | | | | | | |];
      try (match goal with
           | |- context [handle _ ?ev _] =>
               destruct (handler_guarded randoms (eezData (app pg)) ev pg Logic.I He eq_refl
                           pg (conj eq_refl IH)) as [Heq Hnb]
           end;
           unfold handle; rewrite Heq; exact Hnb).
    cbn [enabled] in He. left.
    apply (onEezFetched_unclassified g pg).
    destruct IH as [IH|IH]; [exact IH|]. rewrite He in IH. now contradiction IH.
Qed.

End NeedsBoundaryReachable.

(** X19.  No status without a boundary: on every page the component can
    reach, as long as no boundary with a first feature is held, the page
    shows neither "Safe" nor "Outside EEZ", no alert banner, no emergency
    button and no distance.  (A handler sees the boundary of its own
    render, which is the one held or the [null] before it.) *)
Theorem no_status_without_boundary (turf : Turf) (randoms : nat -> Q) (pg : Page) :
  reachable randoms pg ->
  primaryFeature (eezData (app pg)) = None ->
  locationStatusCard (render pg) = "Loading..." /\
  alertBanner (render pg) = None /\
  emergencyButton (render pg) = false /\
  distanceCard (render pg) = "—" /\
  distanceLine (render pg) = "Calculating...".
Proof.
  intros Hr Hn.
  destruct (reachable_needsBoundary randoms pg Hr) as [(Hc & Ha & Hd)|H];
    [|now contradiction H].
  unfold render.
  cbn [locationStatusCard alertBanner emergencyButton distanceCard distanceLine].
  rewrite Hc, Ha, Hd. repeat split.
Qed.

Lemma no_status_without_boundary_witness :
  locationStatusCard
    (render (@handle PlanarTurf.turf (fun _ => 0) ResetViewClicked
               (@handle PlanarTurf.turf (fun _ => 0) Mounted initialPage)))
    = "Loading...".
Proof.
  apply (no_status_without_boundary PlanarTurf.turf (fun _ => 0)).
  - repeat (apply reachable_step; [|exact Logic.I]). apply reachable_initial.
  - reflexivity.
Defined.


(** ** The button "Random Demo Location" *)

(** The page shows the position [p], classified as [inside], in demo mode. *)
Definition demoShown (p : LonLat) (inside : bool) (pg : Page) : Prop :=
  pos pg = {| pos_lon := Some (lon p); pos_lat := Some (lat p) |} /\
  safety (app pg) = classification inside /\
  isDemoMode pg = true.

Section RandomDemo.

Context {turf : Turf}.
Variable randoms : nat -> Q.

Lemma updatePosition_demoShown pg m f others p inside :
  map_current (app pg) = Some m ->
  eezData (app pg) = boundarySet f others ->
  insidePolygon (point (lon p) (lat p)) f = Normal inside ->
  isDemoMode pg = true ->
  demoShown p inside (snd (updatePosition (Some (lon p)) (Some (lat p)) pg)).
Proof.
  intros Hm He Hin Hd. rewrite (updatePosition_numeric (lon p) (lat p) pg m Hm).
  rewrite (updateSafety_loaded (app pg) m f others (lon p) (lat p) Hm He), Hin.
  match goal with
  | |- context [updateDistanceToEEZ (lon p) (lat p) ?a] => set (a1 := a)
  end.
  assert (Hm1 : exists m1, map_current a1 = Some m1) by (eexists; reflexivity).
  destruct Hm1 as [m1 Hm1].
  rewrite (updateDistanceToEEZ_loaded a1 m1 f others (lon p) (lat p) Hm1 He).
  destruct (distKm (point (lon p) (lat p)) f); cbn [fst snd];
    (repeat split; [now destruct inside|exact Hd]).
Qed.

Lemma onRandomDemo_demoShown pg m f others region inside :
  map_current (app pg) = Some m ->
  eezData (app pg) = boundarySet f others ->
  drawnRegion randoms (app pg) = Normal region ->
  insidePolygon (point (lon (drawnPoint randoms region (app pg)))
                       (lat (drawnPoint randoms region (app pg)))) f = Normal inside ->
  inside = drawnRelation randoms (app pg) ->
  demoShown (drawnPoint randoms region (app pg)) inside (snd (onRandomDemo randoms pg)).
Proof.
  intros Hm He Hreg Hin Hrel.
  unfold onRandomDemo. unfold bindP at 1. unfold setIsDemoMode at 1.
  unfold bindP at 1. unfold liftApp. cbn [app].
  rewrite getRandomDemoLocation_steps, Hreg. cbv zeta.
  rewrite He. cbn [boundarySet primaryFeature features]. rewrite Hin, <- Hrel.
  rewrite Bool.eqb_reflx.
  set (p := drawnPoint randoms region (app pg)).
  match goal with
  | |- demoShown _ _ (snd (bindP _ _ ?pg1)) => set (pg' := pg1)
  end.
  assert (H : demoShown p inside (snd (updatePosition (Some (lon p)) (Some (lat p)) pg')))
    by (apply (updatePosition_demoShown pg' m f others p inside); auto).
  unfold bindP.
  destruct (updatePosition (Some (lon p)) (Some (lat p)) pg') as [[[]|e] pg2];
    cbn [snd] in H; [|exact H].
  revert pg2 H.
  change (keeps (demoShown p inside) (ifMap (flyTo (lon p, lat p) 6) (retP tt))).
  repeat first [ keeps_step | keeps_field ].
Qed.

End RandomDemo.

(** X20.  A demo location that passes the double check is shown as it was
    drawn: when "Random Demo Location" draws Inside and the boundary's
    test says inside (or draws Outside and the test says outside), the
    page stores the drawn point, classifies it as the relation drawn (the
    same test on the same point) and, being in demo mode, offers the
    emergency button exactly for an Outside draw. *)
Theorem random_demo_shown_as_drawn (turf : Turf) (randoms : nat -> Q) (pg : Page)
    (m : MapBox) (f : Feature) (others : list Feature) (region : OceanRegion)
    (inside : bool) :
  map_current (app pg) = Some m ->
  eezData (app pg) = boundarySet f others ->
  drawnRegion randoms (app pg) = Normal region ->
  insidePolygon (point (lon (drawnPoint randoms region (app pg)))
                       (lat (drawnPoint randoms region (app pg)))) f = Normal inside ->
  inside = drawnRelation randoms (app pg) ->
  pos (handle randoms RandomDemoClicked pg)
  = {| pos_lon := Some (lon (drawnPoint randoms region (app pg)));
       pos_lat := Some (lat (drawnPoint randoms region (app pg))) |} /\
  safety (app (handle randoms RandomDemoClicked pg))
  = classification (drawnRelation randoms (app pg)) /\
  emergencyButton (render (handle randoms RandomDemoClicked pg))
  = negb (drawnRelation randoms (app pg)).
Proof.
  intros Hm He Hreg Hin Hrel.
  destruct (onRandomDemo_demoShown randoms pg m f others region inside Hm He Hreg Hin Hrel)
    as (Hp & Hs & Hd).
  change (snd (onRandomDemo randoms pg)) with (handle randoms RandomDemoClicked pg) in *.
  subst inside. repeat split; [exact Hp|exact Hs|].
  unfold render. cbn [emergencyButton]. rewrite Hs, Hd.
  now destruct (drawnRelation randoms (app pg)).
Qed.

Lemma random_demo_shown_as_drawn_witness :
  emergencyButton
    (render (@handle PlanarTurf.turf (fun _ => 3 # 4) RandomDemoClicked
               (loadedPage (mounted squareFeature))))
  = true.
Proof.
  edestruct (random_demo_shown_as_drawn PlanarTurf.turf (fun _ => 3 # 4)
               (loadedPage (mounted squareFeature))
               {| layers := [("eez-fill", ""); ("eez-line", ""); ("boat", "#FFD400")] |}
               squareFeature [] {| region_bbox := (98, 8, 104, 14)%Q; insideEEZ := false |}
               false)
    as (_ & _ & H);
    [ reflexivity | reflexivity | vm_compute; reflexivity | vm_compute; reflexivity
    | reflexivity | ].
  rewrite H. reflexivity.
Defined.


Section DebounceLatest.

Context {turf : Turf}.
Variable randoms : nat -> Q.

Lemma reachable_debounced pg : reachable randoms pg -> debounced pg.
Proof.
  induction 1 as [|e pg Hr IH He]; [now left|exact (handler_debounced randoms e pg IH)].
Qed.

End DebounceLatest.

(** X21.  The debounce fetches the latest position only: on a page the
    component can reach, once [refreshMarineData(lat, lon)] has run, the one
    timer that can still fire is its own, and firing it starts the fetch for
    [(lat, lon)]; a timer set before it starts nothing any more. *)
Theorem debounce_fetches_latest (turf : Turf) (randoms : nat -> Q) (pg : Page)
    (lat lon : Coord) (id : positive) :
  reachable randoms pg ->
  fetches (debounce (snd (onTimer id (snd (refreshMarineData lat lon pg)))))
  = fetches (debounce pg)
    ++ (if Pos.eqb id (nextTimer (debounce pg)) then [(lat, lon)] else []).
Proof.
  intros Hr. apply reachable_debounced in Hr. unfold debounced in Hr.
  unfold refreshMarineData, bindP, clearPending, setMarineLoading, startTimer, onTimer.
  cbn [snd debounce with_debounce marineDebounceRef timers nextTimer fetches].
  assert (Hc : match marineDebounceRef (debounce pg) with
               | Some id0 => clearTimeout id0 (timers (debounce pg))
               | None => timers (debounce pg)
               end = []).
  { destruct Hr as [H|(id0 & args & H & Href)]; rewrite H.
    - now destruct (marineDebounceRef (debounce pg)).
    - rewrite Href. unfold clearTimeout. cbn [filter fst]. now rewrite Pos.eqb_refl. }
  rewrite Hc. cbn [List.app find fst]. rewrite (Pos.eqb_sym id).
  destruct (Pos.eqb (nextTimer (debounce pg)) id); cbn [snd debounce with_debounce fetches].
  - reflexivity.
  - now rewrite app_nil_r.
Qed.

Lemma debounce_fetches_latest_witness :
  fetches
    (debounce
       (snd (onTimer 2
               (snd (refreshMarineData (Some 3) (Some 4)
                       (@handle PlanarTurf.turf (fun _ => 0) ResetViewClicked
                          (@handle PlanarTurf.turf (fun _ => 0) Mounted initialPage)))))))
  = [(Some 3, Some 4)].
Proof.
  rewrite (debounce_fetches_latest PlanarTurf.turf (fun _ => 0)).
  - reflexivity.
  - repeat (apply reachable_step; [|exact Logic.I]). apply reachable_initial.
Defined.

(** ** The emergency alert *)

(** A status "danger" comes with a position of two numbers. *)
Definition located (pg : Page) : Prop :=
  cls (safety (app pg)) = "danger" ->
  exists lon lat, pos pg = {| pos_lon := Some lon; pos_lat := Some lat |}.

Definition calm (pg : Page) : Prop := cls (safety (app pg)) <> "danger".

Lemma located_eezBlind : eezBlind located.
Proof. intros pg d. reflexivity. Qed.

Section Located.

Context {turf : Turf}.
Variable randoms : nat -> Q.

Lemma updatePosition_located_numeric lon lat :
  keeps located (updatePosition (Some lon) (Some lat)).
Proof.
  intros pg _ _. exists lon, lat. apply updatePosition_pos.
Qed.

Lemma liftApp_calm {A} (c : M A) :
  (forall st, cls (safety st) <> "danger" -> cls (safety (snd (c st))) <> "danger") ->
  keeps calm (liftApp c).
Proof.
  intros Hc pg H. unfold liftApp. specialize (Hc (app pg) H).
  destruct (c (app pg)). exact Hc.
Qed.

Lemma updateSafetyAt_null_calm lon lat st :
  lon = None \/ lat = None ->
  cls (safety st) <> "danger" -> cls (safety (snd (updateSafetyAt lon lat st))) <> "danger".
Proof.
  intros Hn H.
  assert (Hs : updateSafetyAt lon lat = updateSafetyAt None None).
  { destruct Hn as [-> | ->]; [destruct lat|destruct lon]; reflexivity. }
  rewrite Hs. cbn [updateSafetyAt].
  destruct (map_current st); [|exact H].
  destruct (primaryFeature (eezData st)); [exact H|]. cbn. discriminate.
Qed.

Lemma updateDistanceToEEZAt_null_calm lon lat st :
  lon = None \/ lat = None ->
  cls (safety st) <> "danger" ->
  cls (safety (snd (updateDistanceToEEZAt lon lat st))) <> "danger".
Proof.
  intros Hn H.
  assert (Hs : updateDistanceToEEZAt lon lat = updateDistanceToEEZAt None None).
  { destruct Hn as [-> | ->]; [destruct lat|destruct lon]; reflexivity. }
  rewrite Hs. cbn [updateDistanceToEEZAt].
  destruct (map_current st); exact H.
Qed.

Lemma updatePosition_null_calm lon lat :
  lon = None \/ lat = None -> keeps calm (updatePosition lon lat).
Proof.
  intros Hn. unfold updatePosition, refreshMarineData.
  repeat first
    [ keeps_step
    | apply liftApp_calm; intro;
      first [ apply updateSafetyAt_null_calm | apply updateDistanceToEEZAt_null_calm ];
      exact Hn
    | keeps_field ].
Qed.

(** [updatePosition] from an input: a coordinate that is [null] is the
    page's. *)
Lemma updatePosition_located lon lat pg :
  (lon = None -> pos_lon (pos pg) = None) ->
  (lat = None -> pos_lat (pos pg) = None) ->
  located pg -> located (snd (updatePosition lon lat pg)).
Proof.
  intros Hlon Hlat H.
  destruct lon as [x|], lat as [y|];
    [ apply updatePosition_located_numeric; exact H | | | ];
    (assert (Hc : calm pg)
       by (intros Hd; destruct (H Hd) as (lon' & lat' & E); rewrite E in Hlon, Hlat;
           first [ now discriminate Hlon | now discriminate Hlat ]);
     intros Hd; exfalso; revert Hd;
     apply updatePosition_null_calm; [auto|exact Hc]).
Qed.

Lemma getRandomDemoLocation_located :
  keeps located (liftApp (getRandomDemoLocation randoms)).
Proof.
  intros pg H. unfold liftApp.
  assert (Hs : safety (snd (getRandomDemoLocation randoms (app pg))) = safety (app pg))
    by (rewrite getRandomDemoLocation_steps; now destruct (drawnRegion randoms (app pg))).
  destruct (getRandomDemoLocation randoms (app pg)) as [r a]. cbn [snd] in *.
  unfold located in *. cbn [app pos with_app]. rewrite Hs. exact H.
Qed.

Lemma addLayers_located p e : keeps located (addLayers p e).
Proof.
  unfold addLayers. repeat first [ keeps_step | keeps_field ].
Qed.

Lemma handler_located e : keeps located (handler randoms e).
Proof.
  destruct e; cbn [handler]; unfold_handlers;
    try (destruct parsed; [|apply keeps_retP]; intros pg H; unfold withPos;
         apply updatePosition_located; [auto; discriminate|auto; discriminate|exact H]);
    repeat first
      [ apply keeps_seeing; [exact located_eezBlind|]
      | apply updatePosition_located_numeric | apply addLayers_located
      | apply getRandomDemoLocation_located
      | keeps_step | keeps_field ].
Qed.

Lemma reachable_located pg : reachable randoms pg -> located pg.
Proof.
  induction 1 as [|e pg Hr IH He]; [discriminate|exact (handler_located e pg IH)].
Qed.

End Located.

(** X22.  The emergency alert always has coordinates: on every page the
    component can reach, when the emergency button is shown the position
    holds two numbers, so that the link [sendEmergencyAlert] sends carries
    their four decimals and never the text of [undefined]. *)
Theorem emergency_alert_has_coordinates (turf : Turf) (randoms : nat -> Q) (pg : Page) :
  reachable randoms pg ->
  emergencyButton (render pg) = true ->
  exists lon lat,
    pos pg = {| pos_lon := Some lon; pos_lat := Some lat |} /\
    mapsLink (pos pg)
    = ("https://maps.google.com/?q=" ++ toFixed 4 (Num lat) ++ "," ++ toFixed 4 (Num lon))%string.
Proof.
  intros Hr Hb. unfold render in Hb. cbn [emergencyButton] in Hb.
  apply andb_true_iff in Hb as [Hb _]. apply String.eqb_eq in Hb.
  destruct (reachable_located randoms pg Hr Hb) as (lon & lat & Hp).
  exists lon, lat. split; [exact Hp|]. rewrite Hp. reflexivity.
Qed.

Lemma emergency_alert_has_coordinates_witness :
  exists lon lat,
    pos (@handle PlanarTurf.turf (fun _ => 3 # 4) RandomDemoClicked
           (@handle PlanarTurf.turf (fun _ => 3 # 4)
              (EezFetched {| features := Some [squareFeature] |})
              (@handle PlanarTurf.turf (fun _ => 3 # 4) Mounted initialPage)))
    = {| pos_lon := Some lon; pos_lat := Some lat |}.
Proof.
  destruct (emergency_alert_has_coordinates PlanarTurf.turf (fun _ => 3 # 4)
              (@handle PlanarTurf.turf (fun _ => 3 # 4) RandomDemoClicked
                 (@handle PlanarTurf.turf (fun _ => 3 # 4)
                    (EezFetched {| features := Some [squareFeature] |})
                    (@handle PlanarTurf.turf (fun _ => 3 # 4) Mounted initialPage))))
    as (lon & lat & Hp & _).
  - apply reachable_step; [|exact Logic.I].
    apply reachable_step; [|reflexivity].
    apply reachable_step; [|exact Logic.I]. apply reachable_initial.
  - vm_compute. reflexivity.
  - exists lon, lat. exact Hp.
Defined.
